(** * BLACKGIFT AI: history trimming, token accounting and persistence

    A shallow embedding of [server.js]: the token estimator, the trimming
    engine, the Firestore and session helpers, the conversation builder and
    the [/api/chat], [/api/reset], [/api/history] and [/api/usage] handlers,
    followed by the properties the specification states about them. *)

From Stdlib Require Import ZArith String Ascii List Lia Bool.
From stdpp Require Import base option list gmap strings.

Local Open Scope string_scope.
Local Open Scope Z_scope.

(** ** JavaScript values *)

(** [HISTORY_MAX_TOKENS] is [parseInt(process.env.HISTORY_MAX_TOKENS || '3000', 10)]:
    an integer, or [NaN] when the variable does not start with a number. *)
Inductive jsnum :=
  | NaN
  | Num (z : Z).

(** [total <= maxTokens] and [total > maxTokens] for an integer [total];
    both comparisons are false against [NaN]. *)
Definition le_js (total : Z) (maxTokens : jsnum) : bool :=
  match maxTokens with
  | NaN => false
  | Num b => total <=? b
  end.

Definition gt_js (total : Z) (maxTokens : jsnum) : bool :=
  match maxTokens with
  | NaN => false
  | Num b => b <? total
  end.

(** A message object [{ role, content, ts }]; [ts] is absent on the
    messages built without it (lines 124, 128, 167, 206, 248). Strings are
    sequences of code units below 256. *)
Record message := Message {
  role : string;
  content : string;
  ts : option Z
}.

(** [t || now] on an optional timestamp: absent and [0] are falsy. *)
Definition ts_or (t : option Z) (now : Z) : Z :=
  match t with
  | Some v => if v =? 0 then now else v
  | None => now
  end.

(** [m => ({ role: m.role, content: m.content, ts: m.ts || Date.now() })] *)
Definition stamp (now : Z) (m : message) : message :=
  {| role := role m; content := content m; ts := Some (ts_or (ts m) now) |}.

(** [m => ({ role: m.role, content: m.content })] *)
Definition bare (m : message) : message :=
  {| role := role m; content := content m; ts := None |}.

(** [{ role: 'user', content: userMessage, ts: Date.now() }] and its
    assistant twin. *)
Definition user_turn (userMessage : string) (now : Z) : message :=
  {| role := "user"; content := userMessage; ts := Some now |}.

Definition assistant_turn (assistantText : string) (now : Z) : message :=
  {| role := "assistant"; content := assistantText; ts := Some now |}.

#[local] Set Warnings "-register-all".

(** A parsed JSON value, as [express.json()] leaves it in [req.body].
    Numbers are the integer literals. *)
Inductive json :=
  | JNull
  | JBool (b : bool)
  | JNum (z : Z)
  | JStr (s : string)
  | JArr (items : list json)
  | JObj (fields : list (string * json)).

Definition truthy (v : json) : bool :=
  match v with
  | JNull => false
  | JBool b => b
  | JNum z => negb (z =? 0)
  | JStr s => negb (String.eqb s "")
  | JArr _ | JObj _ => true
  end.

(** Own property [k] of a parsed object; a repeated key keeps its last value. *)
Fixpoint lookup_field (k : string) (fields : list (string * json)) : option json :=
  match fields with
  | [] => None
  | (k', v) :: more =>
      match lookup_field k more with
      | Some later => Some later
      | None => if String.eqb k k' then Some v else None
      end
  end.

(** [req.body?.message]: [undefined] unless the body is an object that has
    the field. *)
Definition body_message (body : option json) : option json :=
  match body with
  | Some (JObj fields) => lookup_field "message" fields
  | _ => None
  end.

(** [String.prototype.trim] on code units below 256: TAB, LF, VT, FF, CR,
    SPACE and NBSP are stripped from both ends. *)
Definition is_js_space (c : ascii) : bool :=
  let n := nat_of_ascii c in
  ((9 <=? n)%nat && (n <=? 13)%nat) || (n =? 32)%nat || (n =? 160)%nat.

Fixpoint trim_start (s : string) : string :=
  match s with
  | EmptyString => EmptyString
  | String c more => if is_js_space c then trim_start more else s
  end.

Fixpoint trim_end (s : string) : string :=
  match s with
  | EmptyString => EmptyString
  | String c more =>
      match trim_end more with
      | EmptyString => if is_js_space c then EmptyString else String c EmptyString
      | kept => String c kept
      end
  end.

Definition js_trim (s : string) : string := trim_end (trim_start s).

(** A thrown value, as far as the [catch] blocks look at it:
    [err?.response?.data], [err?.message] and [String(err)]. *)
Record js_error := JsError {
  response_data : option string;
  message_of : option string;
  to_string : string
}.

(** [err?.response?.data ?? err?.message ?? String(err)] *)
Definition error_details (err : js_error) : string :=
  match response_data err with
  | Some d => d
  | None =>
      match message_of err with
      | Some m => m
      | None => to_string err
      end
  end.

(** The [TypeError] of calling a property that is not a function, and of
    reading a property of [null] or [undefined]. *)
Definition not_a_function : js_error :=
  {| response_data := None;
     message_of := Some "trim is not a function";
     to_string := "TypeError: trim is not a function" |}.

Definition null_property : js_error :=
  {| response_data := None;
     message_of := Some "Cannot read properties of null";
     to_string := "TypeError: Cannot read properties of null" |}.

Definition APP_NAME : string := "BLACKGIFT AI".

Definition SYSTEM_PROMPT : string :=
  "Ndiri mubatsiri we" ++ APP_NAME ++
  ". Gara uchipindura muChiShona (Shona) chete. Kana mushandisi akakumbira kuchinja mutauro, bvunza mubvunzo muChiShona kuti uverenge kana vachida kuchinja. Shandisa mutauro unonzwisisika, wakapfava, uye unoenderana nemamiriro emubvunzo.".

(** The result object [{ messages, totalTokens }] of the trimming engine. *)
Record trimmed := Trimmed {
  messages : list message;
  totalTokens : Z
}.

(** ** Stored data *)

(** [token_usage: { total, last_updated }] *)
Record usage := Usage {
  total : Z;
  last_updated : Z
}.

(** A document of the [user_histories] collection. Every field is
    optional: [set] with [{ merge: true }] writes the fields it is given. *)
Record user_doc := UserDoc {
  history : option (list message);
  total_tokens : option Z;
  token_usage : option usage;
  updated_at : option Z
}.

Definition or_else {A} (given old : option A) : option A :=
  match given with
  | Some _ => given
  | None => old
  end.

(** [docRef.set(data, { merge: true })] on an existing document. *)
Definition merge_doc (old data : user_doc) : user_doc :=
  {| history := or_else (history data) (history old);
     total_tokens := or_else (total_tokens data) (total_tokens old);
     token_usage := or_else (token_usage data) (token_usage old);
     updated_at := or_else (updated_at data) (updated_at old) |}.

(** The fields [saveUserHistory] writes. *)
Definition save_fields (hist : list message) (tokens now : Z) : user_doc :=
  {| history := Some (map (stamp now) hist); total_tokens := Some tokens;
     token_usage := None; updated_at := Some now |}.

(** [req.session]: [history] is [None] when it is missing or not an array. *)
Record session_data := SessionData {
  session_history : option (list message);
  history_total_tokens : option Z
}.

Record request := Request {
  req_user : option string;
  body : option json
}.

(** What a handler can reach and change: the Firestore handle ([None] when
    [admin.firestore] is missing) with its [user_histories] collection,
    [req.session], the clock behind [Date.now()], and the outcome of the
    store calls still to come ([Some err]: the call rejects with [err]; an
    exhausted list: the call succeeds). *)
Record state := State {
  firestore : option (gmap string user_doc);
  session : session_data;
  clock : Z;
  faults : list (option js_error)
}.

Inductive outcome (A : Type) :=
  | Ret (a : A)
  | Throw (err : js_error).

Arguments Ret {A} a.
Arguments Throw {A} err.

(** Handler code: it may change the state and then return or throw; what
    it wrote before a throw stays written. *)
Definition M (A : Type) : Type := state -> outcome A * state.

Definition ret {A} (a : A) : M A := fun s => (Ret a, s).

Definition throw {A} (err : js_error) : M A := fun s => (Throw err, s).

Definition bind {A B} (m : M A) (k : A -> M B) : M B :=
  fun s =>
    match m s with
    | (Ret a, s') => k a s'
    | (Throw err, s') => (Throw err, s')
    end.

Notation "'let*' x := m 'in' k" := (bind m (fun x => k))
  (at level 10, x name, m at level 100, k at level 200).

Notation "m ;; k" := (bind m (fun _ => k))
  (at level 100, k at level 200, right associativity).

Definition get_state : M state := fun s => (Ret s, s).

Definition Date_now : M Z := fun s => (Ret (clock s), s).

Definition with_session (sess : session_data) (s : state) : state :=
  {| firestore := firestore s; session := sess; clock := clock s; faults := faults s |}.

Definition with_docs (docs : gmap string user_doc) (s : state) : state :=
  {| firestore := Some docs; session := session s; clock := clock s; faults := faults s |}.

(** [req.session.history = h; req.session.history_total_tokens = t] *)
Definition set_session (h : option (list message)) (t : option Z) : M unit :=
  fun s =>
    (Ret tt, with_session {| session_history := h; history_total_tokens := t |} s).

(** The outcome of the [n]-th store call from now: [Some err] when it
    rejects. *)
Definition fault_at (n : nat) (s : state) : option js_error :=
  match faults s !! n with
  | Some f => f
  | None => None
  end.

Definition pop_fault (s : state) : state :=
  {| firestore := firestore s; session := session s; clock := clock s;
     faults := tail (faults s) |}.

(** One awaited call on the document store: it consumes the next entry
    of [faults]. *)
Definition store_call : M unit :=
  fun s =>
    match fault_at 0 s with
    | Some err => (Throw err, pop_fault s)
    | None => (Ret tt, pop_fault s)
    end.

(** [snap = await docRef.get()]: [None] when [!snap.exists]. *)
Definition doc_get (uid : string) : M (option user_doc) :=
  store_call ;;
  fun s =>
    match firestore s with
    | Some docs => (Ret (docs !! uid), s)
    | None => (Throw null_property, s)
    end.

(** The document after [set(data, { merge: true })]: a missing document is
    created from [data]. *)
Definition merged (snap : option user_doc) (data : user_doc) : user_doc :=
  match snap with
  | Some old => merge_doc old data
  | None => data
  end.

Definition write_doc (uid : string) (data : user_doc) (merge : bool)
    (docs : gmap string user_doc) : gmap string user_doc :=
  <[uid := if merge then merged (docs !! uid) data else data]> docs.

(** [await docRef.set(data)] and [await docRef.set(data, { merge: true })] *)
Definition doc_set (uid : string) (data : user_doc) (merge : bool) : M unit :=
  store_call ;;
  fun s =>
    match firestore s with
    | Some docs => (Ret tt, with_docs (write_doc uid data merge docs) s)
    | None => (Throw null_property, s)
    end.

(** The HTTP answer: [res.status(...).json(...)]. *)
Inductive response_body :=
  | ChatReply (reply : string) (prompt completion total_request : Z)
  | ErrorBody (error : string) (details : option string)
  | OkBody (msg : string)
  | HistoryBody (hist : list message)
  | UsageBody (used : Z) (updated : option Z).

Record response := Response {
  status : Z;
  json_body : response_body
}.

(** [try { ... } catch (err) { ... }] around a handler body. *)
Definition try_catch (m : M response) (handler : js_error -> response)
    : state -> response * state :=
  fun s =>
    match m s with
    | (Ret r, s') => (r, s')
    | (Throw err, s') => (handler err, s')
    end.

(** What [loadUserHistory] resolves to when the store is there. *)
Record loaded := Loaded {
  loaded_history : list message;
  loaded_total_tokens : Z
}.

(** What [buildConversation] resolves to. *)
Record conversation := Conversation {
  conv_messages : list message;
  conv_totalTokens : Z;
  persistsTo : string;
  conv_uid : option string
}.

(** [req.user && req.user.uid && firestore]: the uid the durable branch
    is taken with. *)
Definition durable_uid (req : request) (s : state) : option string :=
  match req_user req, firestore s with
  | Some uid, Some _ => if String.eqb uid "" then None else Some uid
  | _, _ => None
  end.

(** ** Token estimation, trimming and the handlers *)

Section Server.

(** [encode] of gpt-3-encoder: the token list of a string, or [None]
    when the call throws. *)
Variable encode : string -> option (list nat).

Variable HISTORY_MAX_TOKENS : jsnum.

(** [openai.chat.completions.create] on the outgoing messages: it rejects,
    or resolves to a completion whose [choices?.[0]?.message?.content] is
    the given option. *)
Variable create : list message -> outcome (option string).

Definition countTokensForContent (text : string) : Z :=
  if String.eqb text "" then 0
  else match encode text with
       | Some tokens => Z.of_nat (length tokens)
       | None => Z.of_nat ((String.length text + 3) / 4)
       end.

Definition countTokensForMessagesArray (msgs : list message) : Z :=
  fold_left (fun total m => total + (countTokensForContent (content m) + 4)) msgs 0 + 2.

(** ** Firestore user-history helpers *)

(** [{ role: 'system', content: SYSTEM_PROMPT }], with [ts] where the
    source gives one. *)
Definition seed_message (t : option Z) : message :=
  {| role := "system"; content := SYSTEM_PROMPT; ts := t |}.

(** [data.history || [{ role: 'system', content: SYSTEM_PROMPT }]] *)
Definition history_or_seed (data : user_doc) : list message :=
  match history data with
  | Some h => h
  | None => [seed_message None]
  end.

Definition loadUserHistory (uid : string) : M (option loaded) :=
  let* s := get_state in
  match firestore s with
  | None => ret None
  | Some _ =>
      let* snap := doc_get uid in
      match snap with
      | None =>
          let* now := Date_now in
          doc_set uid
            {| history := Some [seed_message (Some now)];
               total_tokens := Some (countTokensForContent SYSTEM_PROMPT);
               token_usage := Some {| total := 0; last_updated := now |};
               updated_at := Some now |} false ;;
          ret (Some {| loaded_history := [seed_message None];
                       loaded_total_tokens := countTokensForContent SYSTEM_PROMPT |})
      | Some data =>
          ret (Some {| loaded_history := history_or_seed data;
                       loaded_total_tokens :=
                         match total_tokens data with
                         | Some t => t
                         | None => 0
                         end |})
      end
  end.

Definition saveUserHistory (uid : string) (hist : list message) (tokens : Z) : M unit :=
  let* s := get_state in
  match firestore s with
  | None => ret tt
  | Some _ =>
      let* now := Date_now in
      doc_set uid (save_fields hist tokens now) true
  end.

(** [data.token_usage?.total || 0] *)
Definition current_usage (snap : option user_doc) : Z :=
  match snap with
  | Some data =>
      match token_usage data with
      | Some u => total u
      | None => 0
      end
  | None => 0
  end.

(** The update function handed to [runTransaction]: what it writes for
    the snapshot it read. *)
Definition usage_update (snap : option user_doc) (tokensUsed now : Z) : user_doc :=
  {| history := None;
     total_tokens := None;
     token_usage := Some {| total := current_usage snap + tokensUsed;
                            last_updated := now |};
     updated_at := None |}.

(** [await firestore.runTransaction(...)] run on its own: the read and the
    write are one step. *)
Definition addUserTokenUsage (uid : string) (tokensUsed : Z) : M unit :=
  let* s := get_state in
  match firestore s with
  | None => ret tt
  | Some _ =>
      store_call ;;
      let* now := Date_now in
      fun s' =>
        match firestore s' with
        | Some docs =>
            (Ret tt,
             with_docs (write_doc uid (usage_update (docs !! uid) tokensUsed now) true docs) s')
        | None => (Throw null_property, s')
        end
  end.

(** ** Session helpers *)

Definition ensureAnonHistory : M unit :=
  let* s := get_state in
  match session_history (session s) with
  | Some _ => ret tt
  | None =>
      let* now := Date_now in
      set_session (Some [seed_message (Some now)])
                  (Some (countTokensForContent SYSTEM_PROMPT))
  end.

(** [req.session.history.push(m)] *)
Definition session_push (m : message) : M unit :=
  let* s := get_state in
  match session_history (session s) with
  | Some h => set_session (Some (h ++ [m])%list) (history_total_tokens (session s))
  | None => throw null_property
  end.

(** ** Trimming *)

(** The [while (rest.length > 0 && total > maxTokens)] loop: each turn
    shifts the oldest element off [rest] and recounts. *)
Fixpoint trim_loop (system : message) (rest : list message) (total : Z)
    (maxTokens : jsnum) : list message * Z :=
  match rest with
  | [] => (rest, total)
  | _ :: shifted =>
      if gt_js total maxTokens
      then trim_loop system shifted
             (countTokensForMessagesArray (system :: shifted)) maxTokens
      else (rest, total)
  end.

(** [msgs] is [None] for a missing ([null], [undefined]) argument. *)
Definition trimMessagesByTokenBudget (msgs : option (list message))
    (maxTokens : jsnum) : trimmed :=
  match msgs with
  | None | Some [] =>
      {| messages := [seed_message None];
         totalTokens := countTokensForContent SYSTEM_PROMPT |}
  | Some ((system :: rest0) as all) =>
      let total := countTokensForMessagesArray all in
      if le_js total maxTokens then {| messages := all; totalTokens := total |}
      else
        let '(rest, total) := trim_loop system rest0 total maxTokens in
        {| messages := system :: rest; totalTokens := total |}
  end.

(** ** The conversation builder *)

Definition buildConversation (req : request) (userMessage : string) : M conversation :=
  let* s := get_state in
  match durable_uid req s with
  | Some uid =>
      let* ld := loadUserHistory uid in
      match ld with
      | None => throw null_property
      | Some ld =>
          let* now := Date_now in
          let hist :=
            (map (stamp now) (loaded_history ld) ++ [user_turn userMessage now])%list in
          let t := trimMessagesByTokenBudget (Some hist) HISTORY_MAX_TOKENS in
          ret {| conv_messages := messages t; conv_totalTokens := totalTokens t;
                 persistsTo := "firestore"; conv_uid := Some uid |}
      end
  | None =>
      ensureAnonHistory ;;
      let* now := Date_now in
      session_push (user_turn userMessage now) ;;
      let* s1 := get_state in
      let t := trimMessagesByTokenBudget (session_history (session s1)) HISTORY_MAX_TOKENS in
      set_session (Some (messages t)) (Some (totalTokens t)) ;;
      ret {| conv_messages := messages t; conv_totalTokens := totalTokens t;
             persistsTo := "session"; conv_uid := None |}
  end.

(** ** Routes *)

(** [(req.body?.message || '').trim()] *)
Definition message_text (b : option json) : M string :=
  match body_message b with
  | Some v =>
      if truthy v
      then match v with
           | JStr text => ret (js_trim text)
           | _ => throw not_a_function
           end
      else ret (js_trim "")
  | None => ret (js_trim "")
  end.

Definition fallback_reply : string := "Handina kupindura zvakanaka. Edza zvakare.".

(** [completion?.choices?.[0]?.message?.content || fallback] *)
Definition reply_text (completion : option string) : string :=
  match completion with
  | Some text => if String.eqb text "" then fallback_reply else text
  | None => fallback_reply
  end.

(** The branch [if (persistsTo === 'firestore' && uid)] of [/api/chat]. *)
Definition persist_durable (uid userMessage assistantText : string)
    (totalRequestTokens : Z) : M unit :=
  let* ld := loadUserHistory uid in
  match ld with
  | None => throw null_property
  | Some ld =>
      let* now := Date_now in
      let hist :=
        (loaded_history ld
         ++ [user_turn userMessage now; assistant_turn assistantText now])%list in
      let t := trimMessagesByTokenBudget (Some hist) HISTORY_MAX_TOKENS in
      saveUserHistory uid (messages t) (totalTokens t) ;;
      addUserTokenUsage uid totalRequestTokens
  end.

Definition persist_session (assistantText : string) : M unit :=
  ensureAnonHistory ;;
  let* now := Date_now in
  session_push (assistant_turn assistantText now) ;;
  let* s := get_state in
  let t := trimMessagesByTokenBudget (session_history (session s)) HISTORY_MAX_TOKENS in
  set_session (Some (messages t)) (Some (totalTokens t)).

Definition chat_try (req : request) : M response :=
  let* userMessage := message_text (body req) in
  if String.eqb userMessage ""
  then ret {| status := 400; json_body := ErrorBody "message is required" None |}
  else
    let* conv := buildConversation req userMessage in
    let openaiMessages := map bare (conv_messages conv) in
    let* completion := (fun s => (create openaiMessages, s)) in
    let assistantText := reply_text completion in
    let promptTokens := countTokensForMessagesArray openaiMessages in
    let completionTokens := countTokensForContent assistantText in
    let totalRequestTokens := promptTokens + completionTokens in
    (match String.eqb (persistsTo conv) "firestore", conv_uid conv with
     | true, Some uid =>
         if String.eqb uid "" then persist_session assistantText
         else persist_durable uid userMessage assistantText totalRequestTokens
     | _, _ => persist_session assistantText
     end) ;;
    ret {| status := 200;
           json_body := ChatReply assistantText promptTokens completionTokens
                          totalRequestTokens |}.

(** The values of [openaiMessages], of the trimmed history of line 225 and
    of [totalRequestTokens] in a durable [/api/chat] turn on the stored
    document [d]. *)
Definition outgoing_messages (d : user_doc) (userMessage : string) (now : Z)
    : list message :=
  map bare
      (messages (trimMessagesByTokenBudget
                   (Some (map (stamp now) (history_or_seed d)
                          ++ [user_turn userMessage now])%list)
                   HISTORY_MAX_TOKENS)).

Definition turn_history (d : user_doc) (userMessage assistantText : string) (now : Z)
    : trimmed :=
  trimMessagesByTokenBudget
    (Some (history_or_seed d
           ++ [user_turn userMessage now; assistant_turn assistantText now])%list)
    HISTORY_MAX_TOKENS.

Definition request_tokens (sent : list message) (assistantText : string) : Z :=
  countTokensForMessagesArray sent + countTokensForContent assistantText.

(** The history an anonymous turn starts from: [req.session.history] after
    [ensureAnonHistory]. *)
Definition anon_history (s : state) : list message :=
  match session_history (session s) with
  | Some h => h
  | None => [seed_message (Some (clock s))]
  end.

(** [app.post('/api/chat', ...)] *)
Definition api_chat (req : request) : state -> response * state :=
  try_catch (chat_try req)
    (fun err => {| status := 500;
                   json_body := ErrorBody "Failed to process chat"
                                  (Some (error_details err)) |}).

Definition reset_try (req : request) : M response :=
  let* s := get_state in
  match durable_uid req s with
  | Some uid =>
      saveUserHistory uid [seed_message None] (countTokensForContent SYSTEM_PROMPT) ;;
      ret {| status := 200; json_body := OkBody "User history reset." |}
  | None =>
      let* now := Date_now in
      set_session (Some [seed_message (Some now)])
                  (Some (countTokensForContent SYSTEM_PROMPT)) ;;
      ret {| status := 200; json_body := OkBody "Session history reset." |}
  end.

(** [app.post('/api/reset', ...)] *)
Definition api_reset (req : request) : state -> response * state :=
  try_catch (reset_try req)
    (fun err => {| status := 500;
                   json_body := ErrorBody "Failed to reset history"
                                  (Some (error_details err)) |}).

Definition history_try (req : request) : M response :=
  let* s := get_state in
  match durable_uid req s with
  | Some uid =>
      let* ld := loadUserHistory uid in
      match ld with
      | None => throw null_property
      | Some ld => ret {| status := 200; json_body := HistoryBody (loaded_history ld) |}
      end
  | None =>
      ensureAnonHistory ;;
      let* s1 := get_state in
      ret {| status := 200;
             json_body := HistoryBody (match session_history (session s1) with
                                       | Some h => h
                                       | None => []
                                       end) |}
  end.

(** [app.get('/api/history', ...)] *)
Definition api_history (req : request) : state -> response * state :=
  try_catch (history_try req)
    (fun err => {| status := 500;
                   json_body := ErrorBody "Failed to load history"
                                  (Some (error_details err)) |}).

(** [app.get('/api/usage', ...)] *)
Definition api_usage (req : request) : state -> response * state :=
  fun s =>
    match durable_uid req s with
    | None =>
        ({| status := 401;
            json_body := ErrorBody "Authentication required to view usage" None |}, s)
    | Some uid =>
        try_catch
          (let* snap := doc_get uid in
           match snap with
           | None => ret {| status := 200; json_body := UsageBody 0 None |}
           | Some data =>
               ret {| status := 200;
                      json_body :=
                        match token_usage data with
                        | Some u => UsageBody (total u) (Some (last_updated u))
                        | None => UsageBody 0 None
                        end |}
           end)
          (fun err => {| status := 500;
                         json_body := ErrorBody "Failed to load usage"
                                        (Some (error_details err)) |}) s
    end.

End Server.

(** A sample tokenizer for running the definitions on concrete inputs: one
    token per code unit. *)
Definition unit_encode (s : string) : option (list nat) :=
  Some (map nat_of_ascii (list_ascii_of_string s)).

(** ** Concurrent usage increments *)

(** Modelled from the spec: [firestore.runTransaction] of the document
    store (firebase-admin, outside the repository) as the optimistic retry
    loop of the design notes. The update function of [addUserTokenUsage]
    reads the document ([tx.get]) and hands back its write ([tx.set]); the
    store applies the write only if the document has not been written since
    the read, and otherwise runs the update function again; it may also give
    up, rejecting the call without a write. *)
Inductive phase :=
  | Pending
  | HasRead (snap : option user_doc) (seen : nat)
  | Committed
  | Aborted.

(** One in-flight [addUserTokenUsage(uid, tokensUsed)] call. *)
Record call := Call {
  tokensUsed : Z;
  at_phase : phase
}.

(** The document of one uid, its write version, and the calls in flight. *)
Record shared := Shared {
  doc : option user_doc;
  version : nat;
  calls : list call
}.

(** Modelled from the spec: one step of the store on the in-flight
    transactions. A call reads ([tx_get]); its write is applied if the
    document still has the version it read ([tx_commit]); otherwise the
    update function is run again ([tx_retry]); a call that has not committed
    may be given up ([tx_abort]); a [saveUserHistory] of another request may
    write the document at any time ([tx_save]). *)
Inductive tx_step : shared -> shared -> Prop :=
  | tx_get d v cs i delta :
      cs !! i = Some (Call delta Pending) ->
      tx_step (Shared d v cs) (Shared d v (<[i := Call delta (HasRead d v)]> cs))
  | tx_commit d v cs i delta snap now :
      cs !! i = Some (Call delta (HasRead snap v)) ->
      tx_step (Shared d v cs)
              (Shared (Some (merged d (usage_update snap delta now))) (S v)
                      (<[i := Call delta Committed]> cs))
  | tx_retry d v cs i delta snap seen :
      cs !! i = Some (Call delta (HasRead snap seen)) ->
      seen <> v ->
      tx_step (Shared d v cs) (Shared d v (<[i := Call delta Pending]> cs))
  | tx_abort d v cs i c :
      cs !! i = Some c ->
      at_phase c <> Committed ->
      tx_step (Shared d v cs) (Shared d v (<[i := Call (tokensUsed c) Aborted]> cs))
  | tx_save d v cs hist tokens now :
      tx_step (Shared d v cs)
              (Shared (Some (merged d (save_fields hist tokens now))) (S v) cs).

(** The same calls without the transaction: a plain read followed by a
    [set] with merge, which overwrites whatever was written in between. *)
Inductive lww_step : shared -> shared -> Prop :=
  | lww_get d v cs i delta :
      cs !! i = Some (Call delta Pending) ->
      lww_step (Shared d v cs) (Shared d v (<[i := Call delta (HasRead d v)]> cs))
  | lww_set d v cs i delta snap seen now :
      cs !! i = Some (Call delta (HasRead snap seen)) ->
      lww_step (Shared d v cs)
               (Shared (Some (merged d (usage_update snap delta now))) (S v)
                       (<[i := Call delta Committed]> cs)).

Definition committed_delta (c : call) : Z :=
  match at_phase c with
  | Committed => tokensUsed c
  | _ => 0
  end.

(** The deltas of the calls that have committed, and of all calls. *)
Definition committed_sum (cs : list call) : Z :=
  foldr (fun c acc => committed_delta c + acc) 0 cs.

Definition delta_sum (cs : list call) : Z :=
  foldr (fun c acc => tokensUsed c + acc) 0 cs.

Definition all_pending (cs : list call) : Prop :=
  Forall (fun c => at_phase c = Pending) cs.

Definition all_committed (cs : list call) : Prop :=
  Forall (fun c => at_phase c = Committed) cs.

(** A call that has read holds a snapshot no newer than the document, and
    the document's own counter if nothing was written since. *)
Definition fresh_read (d : option user_doc) (v : nat) (c : call) : Prop :=
  match at_phase c with
  | HasRead snap seen => (seen <= v)%nat /\ (seen = v -> current_usage snap = current_usage d)
  | _ => True
  end.

(** What every interleaving keeps true: the counter is the initial one plus
    the committed deltas, the deltas of the calls are those they started
    with, and every snapshot in hand is fresh in the sense above. *)
Definition tx_invariant (initial : Z) (deltas : list Z) (sys : shared) : Prop :=
  current_usage (doc sys) = initial + committed_sum (calls sys) /\
  map tokensUsed (calls sys) = deltas /\
  Forall (fresh_read (doc sys) (version sys)) (calls sys).

(** ** Sample data *)

(** A stored document whose usage counter stands at 5, a store that holds
    it under uid [u1], a request of that user, a completion service that
    answers, and the error of a store call that rejects. *)
Definition sample_doc : user_doc :=
  {| history := Some [seed_message (Some 1)];
     total_tokens := Some 0;
     token_usage := Some {| total := 5; last_updated := 1 |};
     updated_at := Some 1 |}.

Definition sample_state (outcomes : list (option js_error)) : state :=
  {| firestore := Some {["u1" := sample_doc]};
     session := {| session_history := None; history_total_tokens := None |};
     clock := 1000;
     faults := outcomes |}.

Definition sample_request : request :=
  {| req_user := Some "u1"; body := Some (JObj [("message", JStr " Mhoro ")]) |}.

Definition sample_create (sent : list message) : outcome (option string) :=
  Ret (Some "Mhoro, ndeipi?").

Definition store_unavailable : js_error :=
  {| response_data := None; message_of := Some "UNAVAILABLE";
     to_string := "Error: UNAVAILABLE" |}.

(** Two increments, of 3 and of 4, in flight on the sample document, and
    the state after both have committed: the second call read before the
    first one committed, was refused and ran again. *)
Definition sample_start : shared :=
  {| doc := Some sample_doc; version := 0;
     calls := [Call 3 Pending; Call 4 Pending] |}.

Definition sample_after_first : user_doc :=
  merged (Some sample_doc) (usage_update (Some sample_doc) 3 1001).

Definition sample_finish : shared :=
  {| doc := Some (merged (Some sample_after_first)
                         (usage_update (Some sample_after_first) 4 1002));
     version := 2;
     calls := [Call 3 Committed; Call 4 Committed] |}.

(** A two-message history whose system message alone counts 12 under
    [unit_encode]. *)
Definition sample_system : message :=
  {| role := "system"; content := "abcdef"; ts := None |}.

Definition sample_history : list message :=
  [sample_system; {| role := "user"; content := "Mhoro"; ts := Some 7 |}].

(** The number of messages the trimming engine dropped from [input]. *)
Definition evicted_count (input : list message) (out : trimmed) : nat :=
  (length input - length (messages out))%nat.

(** ** Vocabulary of the further properties *)

(** A tokenizer that always throws, so that the length fallback of
    [countTokensForContent] runs. *)
Definition throwing_encode (s : string) : option (list nat) := None.

(** A history that starts with a message of role system. *)
Definition system_first (h : list message) : Prop :=
  exists (m : message) (rest : list message), h = m :: rest /\ role m = "system".

(** Every history a handler can reach starts with a system message: the
    session history when there is one, and the history of every stored
    document that has one. *)
Definition session_ok (s : state) : Prop :=
  match session_history (session s) with
  | Some h => system_first h
  | None => True
  end.

Definition doc_ok (d : user_doc) : Prop :=
  match history d with
  | Some h => system_first h
  | None => True
  end.

Definition store_ok (s : state) : Prop :=
  match firestore s with
  | Some docs => forall (uid : string) (d : user_doc), docs !! uid = Some d -> doc_ok d
  | None => True
  end.

Definition histories_ok (s : state) : Prop := session_ok s /\ store_ok s.

(** Code that keeps [I] true of the state whether it returns or throws, and
    whose result satisfies [Q] when it returns. *)
Definition keeps {A} (I : state -> Prop) (m : M A) (Q : A -> Prop) : Prop :=
  forall s, I s -> I (snd (m s)) /\ forall a, fst (m s) = Ret a -> Q a.

(** Code after which the state is always related by [R] to the state
    before. *)
Definition frames {A} (R : state -> state -> Prop) (m : M A) : Prop :=
  forall s, R s (snd (m s)).

(** No store call was made and the store is as it was. *)
Definition keeps_store (s s' : state) : Prop :=
  firestore s' = firestore s /\ faults s' = faults s.

(** The session is as it was, and so is every document but that of [uid]. *)
Definition touches_only (uid : string) (s s' : state) : Prop :=
  session s' = session s /\
  match firestore s with
  | Some docs =>
      exists docs' : gmap string user_doc,
        firestore s' = Some docs' /\
        forall other : string, other <> uid -> docs' !! other = docs !! other
  | None => firestore s' = None
  end.

(** ** Authentication middleware *)

(** [s] without the prefix [p], when it starts with it. *)
Fixpoint strip_prefix (p s : string) : option string :=
  match p, s with
  | EmptyString, _ => Some s
  | String a p', String b s' => if Ascii.eqb a b then strip_prefix p' s' else None
  | String _ _, EmptyString => None
  end.

(** The text of [s] before the first occurrence of [sep]: element [[1]] of
    [('Bearer ' + s).split('Bearer ')] for [sep = 'Bearer ']. *)
Fixpoint until_separator (sep s : string) : string :=
  match s with
  | EmptyString => EmptyString
  | String c more =>
      if String.prefix sep s then EmptyString
      else String c (until_separator sep more)
  end.

(** The token [maybeAuthenticate] goes on to verify: [None] where it calls
    [next()] before ([authorization] is the header, [None] when absent). *)
Definition bearer_token (authorization : option string) : option string :=
  let authHeader := match authorization with
                    | Some h => h
                    | None => ""
                    end in
  match strip_prefix "Bearer " authHeader with
  | None => None
  | Some rest =>
      let idToken := js_trim (until_separator "Bearer " rest) in
      if String.eqb idToken "" then None else Some idToken
  end.

(** [maybeAuthenticate]: the uid left in [req.user], [None] when the
    request goes on as anonymous. [admin_ready] is
    [admin.apps.length && admin.auth]; [verifyIdToken] rejects, or resolves
    to the decoded uid. *)
Definition maybeAuthenticate (admin_ready : bool)
    (verifyIdToken : string -> outcome string) (authorization : option string)
    : option string :=
  match bearer_token authorization with
  | None => None
  | Some idToken =>
      if admin_ready
      then match verifyIdToken idToken with
           | Ret uid => Some uid
           | Throw _ => None
           end
      else None
  end.

(** Further sample data: a state without a store and with an empty
    session, two turns after the sample system message, and an identity
    provider that accepts every token. *)
Definition anon_state : state :=
  {| firestore := None;
     session := {| session_history := None; history_total_tokens := None |};
     clock := 1000; faults := [] |}.

Definition sample_older : message :=
  {| role := "user"; content := "Mhoro"; ts := Some 7 |}.

Definition sample_newer : message :=
  {| role := "assistant"; content := "Ndeipi"; ts := Some 8 |}.

Definition sample_verify (idToken : string) : outcome string :=
  Ret ("uid-" ++ idToken).

(** * Properties *)

(** ** The token estimator *)

Section EstimatorFacts.

Variable encode : string -> option (list nat).

Local Abbreviation ctc := (countTokensForContent encode).
Local Abbreviation count := (countTokensForMessagesArray encode).
Local Abbreviation trim := (trimMessagesByTokenBudget encode).

Lemma countTokensForContent_nonneg text : 0 <= ctc text.
Proof.
  unfold countTokensForContent.
  destruct (String.eqb text ""); [lia|].
  destruct (encode text); lia.
Qed.

Lemma fold_count_shift (msgs : list message) (acc : Z) :
  fold_left (fun total m => total + (ctc (content m) + 4)) msgs acc
  = acc + fold_left (fun total m => total + (ctc (content m) + 4)) msgs 0.
Proof.
  revert acc. induction msgs as [|m msgs IH]; intros acc; simpl.
  - lia.
  - rewrite (IH (acc + _)), (IH (0 + _)). lia.
Qed.

Lemma count_cons (m : message) (msgs : list message) :
  count (m :: msgs) = ctc (content m) + 4 + (count msgs - 2) + 2.
Proof.
  unfold countTokensForMessagesArray. simpl.
  rewrite fold_count_shift. lia.
Qed.

Lemma count_nil : count [] = 2.
Proof. reflexivity. Qed.

Lemma count_single (m : message) : count [m] = ctc (content m) + 6.
Proof. rewrite count_cons, count_nil. lia. Qed.

Lemma count_lower_bound (msgs : list message) : 2 <= count msgs.
Proof.
  induction msgs as [|m msgs IH].
  - rewrite count_nil. lia.
  - rewrite count_cons. pose proof (countTokensForContent_nonneg (content m)). lia.
Qed.

Lemma count_head_le (m : message) (msgs : list message) :
  count [m] <= count (m :: msgs).
Proof.
  rewrite count_single, count_cons. pose proof (count_lower_bound msgs). lia.
Qed.

(** What the loop returns: a suffix of [rest], counted again unless no
    turn ran. *)
Lemma trim_loop_suffix (system : message) (rest : list message) (total : Z)
    (maxTokens : jsnum) :
  exists k : nat,
    (k <= length rest)%nat /\
    fst (trim_loop encode system rest total maxTokens) = drop k rest.
Proof.
  revert total. induction rest as [|m rest IH]; intros total; simpl.
  - exists 0%nat. split; [lia | reflexivity].
  - destruct (gt_js total maxTokens).
    + destruct (IH (count (system :: rest))) as (k & Hk & Heq).
      exists (S k). split; [lia | exact Heq].
    + exists 0%nat. split; [lia | reflexivity].
Qed.

Lemma trim_loop_total (system : message) (rest : list message) (total : Z)
    (maxTokens : jsnum) :
  total = count (system :: rest) ->
  snd (trim_loop encode system rest total maxTokens)
  = count (system :: fst (trim_loop encode system rest total maxTokens)).
Proof.
  revert total. induction rest as [|m rest IH]; intros total Htot; simpl.
  - exact Htot.
  - destruct (gt_js total maxTokens).
    + apply IH. reflexivity.
    + exact Htot.
Qed.

Lemma trim_loop_exit (system : message) (rest : list message) (total : Z)
    (maxTokens : jsnum) :
  fst (trim_loop encode system rest total maxTokens) = [] \/
  gt_js (snd (trim_loop encode system rest total maxTokens)) maxTokens = false.
Proof.
  revert total. induction rest as [|m rest IH]; intros total; simpl.
  - left. reflexivity.
  - destruct (gt_js total maxTokens) eqn:Hgt.
    + apply IH.
    + right. exact Hgt.
Qed.

Lemma trim_loop_over_budget (system : message) (rest : list message) (total : Z)
    (maxTokens : jsnum) :
  total = count (system :: rest) ->
  gt_js (count [system]) maxTokens = true ->
  trim_loop encode system rest total maxTokens = ([], count [system]).
Proof.
  intros Htot Hover. revert total Htot.
  induction rest as [|m rest IH]; intros total Htot; simpl.
  - rewrite Htot. reflexivity.
  - assert (gt_js total maxTokens = true) as ->.
    { destruct maxTokens as [|b]; simpl in *; [discriminate|].
      apply Z.ltb_lt. apply Z.ltb_lt in Hover.
      pose proof (count_head_le system (m :: rest)). lia. }
    apply IH. reflexivity.
Qed.


(** The shape of the result on a non-empty list: the head, then what the
    loop left of the rest, with the count of exactly that list. *)
Lemma trim_nonempty (system : message) (rest : list message) (maxTokens : jsnum) :
  exists k : nat,
    (k <= length rest)%nat /\
    messages (trim (Some (system :: rest)) maxTokens) = system :: drop k rest /\
    totalTokens (trim (Some (system :: rest)) maxTokens)
    = count (system :: drop k rest).
Proof.
  unfold trimMessagesByTokenBudget.
  destruct (le_js (count (system :: rest)) maxTokens).
  - exists 0%nat. simpl. split; [lia | split; reflexivity].
  - destruct (trim_loop_suffix system rest (count (system :: rest)) maxTokens)
      as (k & Hk & Hfst).
    pose proof (trim_loop_total system rest (count (system :: rest)) maxTokens
                  eq_refl) as Hsnd.
    destruct (trim_loop encode system rest (count (system :: rest)) maxTokens)
      as [kept total'] eqn:Hloop.
    simpl in *. subst kept. exists k. split; [exact Hk | split; [reflexivity | exact Hsnd]].
Qed.

(** ** The trimming engine *)

(** C1. For every non-empty message list [H] whose first message has role
    system, and every budget [B], the first message of the trimmed list is
    [H[0]]: trimming neither evicts nor moves it. *)
Theorem trim_keeps_system_message (H : list message) (h0 : message) (B : jsnum) :
  H !! 0%nat = Some h0 ->
  role h0 = "system" ->
  messages (trim (Some H) B) !! 0%nat = Some h0.
Proof.
  intros Hhead _. destruct H as [|system rest]; [discriminate|].
  simpl in Hhead. injection Hhead as ->.
  destruct (trim_nonempty h0 rest B) as (k & _ & -> & _). reflexivity.
Qed.

(** C2. The loop is a structural recursion on [rest], so the engine returns
    on every input. With the estimate of the system message alone read as
    the count of the one-element list [[H[0]]] (the number the engine
    reports for it, the content estimate plus 6): the reported count is the
    count of the returned list; it is within [B] whenever [B] is at least
    that estimate; and when [B] is below it the result is exactly [[H[0]]]
    with that over-budget count. *)
Theorem trim_converges (H : list message) (h0 : message) (B : jsnum) :
  H !! 0%nat = Some h0 ->
  totalTokens (trim (Some H) B) = count (messages (trim (Some H) B)) /\
  (le_js (count [h0]) B = true ->
   le_js (count (messages (trim (Some H) B))) B = true) /\
  (gt_js (count [h0]) B = true ->
   trim (Some H) B = {| messages := [h0]; totalTokens := count [h0] |}) /\
  count [h0] = ctc (content h0) + 6.
Proof.
  intros Hhead. destruct H as [|system rest]; [discriminate|].
  simpl in Hhead. injection Hhead as ->.
  split; [|split; [|split; [|apply count_single]]].
  - destruct (trim_nonempty h0 rest B) as (k & _ & -> & ->). reflexivity.
  - intros Hfits. unfold trimMessagesByTokenBudget.
    destruct (le_js (count (h0 :: rest)) B) eqn:Hle; [exact Hle|].
    pose proof (trim_loop_total h0 rest (count (h0 :: rest)) B eq_refl) as Hsnd.
    pose proof (trim_loop_exit h0 rest (count (h0 :: rest)) B) as Hexit.
    destruct (trim_loop encode h0 rest (count (h0 :: rest)) B) as [kept total'].
    simpl in *. destruct Hexit as [-> | Hgt].
    + exact Hfits.
    + rewrite <- Hsnd. destruct B as [|b]; simpl in *; [discriminate|].
      apply Z.leb_le. apply Z.ltb_ge in Hgt. exact Hgt.
  - intros Hover. unfold trimMessagesByTokenBudget.
    assert (le_js (count (h0 :: rest)) B = false) as ->.
    { destruct B as [|b]; simpl in *; [reflexivity|].
      apply Z.leb_gt. apply Z.ltb_lt in Hover.
      pose proof (count_head_le h0 rest). lia. }
    rewrite (trim_loop_over_budget h0 rest _ B eq_refl Hover). reflexivity.
Qed.

(** C6, as amended. For every non-empty message list [H] and budget [B], if
    the count of [H] is within [B], the engine returns [H] itself with that
    count. *)
Theorem trim_identity_under_no_pressure (H : list message) (B : jsnum) :
  H <> [] ->
  le_js (count H) B = true ->
  trim (Some H) B = {| messages := H; totalTokens := count H |}.
Proof.
  intros Hne Hle. destruct H as [|system rest]; [congruence|].
  unfold trimMessagesByTokenBudget. rewrite Hle. reflexivity.
Qed.

(** C7. With [rest] the messages after the system message [H[0]] and [k]
    the number of evicted messages, the result is [H[0]] followed by [rest]
    without its first [k] elements: the evicted messages are the [k] oldest
    of [rest], every retained [rest[j]] sits at position [1 + (j - k)] of
    the result, and every evicted position is strictly before every
    retained one. Read by role, when [H[0]] has role system: an evicted
    message of [H] (a position from 1 to [k]) and a retained one (position 0
    or above [k]) that both have another role are in that order in [H]. *)
Theorem trim_evicts_oldest_first (h0 : message) (rest : list message) (B : jsnum) :
  let out := trim (Some (h0 :: rest)) B in
  let k := evicted_count (h0 :: rest) out in
  (k <= length rest)%nat /\
  messages out = h0 :: drop k rest /\
  (forall i j : nat,
     (i < k)%nat -> (k <= j)%nat -> (j < length rest)%nat ->
     messages out !! (1 + (j - k))%nat = rest !! j /\ (i < j)%nat) /\
  (role h0 = "system" ->
   forall (p q : nat) (evicted retained : message),
     (h0 :: rest) !! p = Some evicted -> role evicted <> "system" ->
     (1 <= p)%nat -> (p <= k)%nat ->
     (h0 :: rest) !! q = Some retained -> role retained <> "system" ->
     q = 0%nat \/ (k < q)%nat ->
     (p < q)%nat).
Proof.
  intros out k. subst out k. unfold evicted_count.
  destruct (trim_nonempty h0 rest B) as (k & Hk & Hmsgs & _).
  rewrite Hmsgs. simpl length. rewrite length_drop.
  replace (S (length rest) - S (length rest - k))%nat with k by lia.
  split; [exact Hk | split; [reflexivity | split]].
  - intros i j Hi Hj Hlen. split; [|lia].
    simpl. rewrite lookup_drop. f_equal. lia.
  - intros Hsystem p q evicted retained _ _ Hp1 Hpk Hq Hrole [-> | Hkq]; [|lia].
    simpl in Hq. injection Hq as <-. congruence.
Qed.

(** C10. On a missing or empty list, whatever the budget, the engine
    returns the one-element seed list and reports the content-only estimate
    of the system prompt, which is exactly 6 below the count of the returned
    list; on every non-empty list the reported number is the count of the
    returned list. *)
Theorem trim_empty_reports_content_only (msgs : option (list message)) (B : jsnum) :
  msgs = None \/ msgs = Some [] ->
  messages (trim msgs B) = [seed_message None] /\
  totalTokens (trim msgs B) = ctc SYSTEM_PROMPT /\
  totalTokens (trim msgs B) = count (messages (trim msgs B)) - 6 /\
  forall H : list message,
    H <> [] ->
    totalTokens (trim (Some H) B) = count (messages (trim (Some H) B)).
Proof.
  intros Hempty.
  assert (trim msgs B = {| messages := [seed_message None];
                           totalTokens := ctc SYSTEM_PROMPT |}) as ->.
  { destruct Hempty as [-> | ->]; reflexivity. }
  cbn [messages totalTokens]. repeat split.
  - rewrite count_single. simpl. lia.
  - intros H Hne. destruct H as [|system rest]; [congruence|].
    destruct (trim_nonempty system rest B) as (k & _ & -> & ->). reflexivity.
Qed.

End EstimatorFacts.

(** ** The trimming engine on a two-message history *)

(** The budget-exceeded scenario: a budget of 10 against a system message
    that alone counts 12 leaves [[system]], reported as 12; a budget of 12
    is met. *)
Lemma trim_converges_witness :
  trimMessagesByTokenBudget unit_encode (Some sample_history) (Num 10)
  = {| messages := [sample_system]; totalTokens := 12 |} /\
  le_js (countTokensForMessagesArray unit_encode
           (messages (trimMessagesByTokenBudget unit_encode (Some sample_history) (Num 12))))
        (Num 12) = true.
Proof.
  split.
  - apply (proj1 (proj2 (proj2 (trim_converges unit_encode sample_history sample_system
                                  (Num 10) eq_refl)))).
    reflexivity.
  - apply (proj1 (proj2 (trim_converges unit_encode sample_history sample_system
                           (Num 12) eq_refl))).
    reflexivity.
Defined.

(** The system message of the sample history stays first under a budget of 10. *)
Lemma trim_keeps_system_message_witness :
  messages (trimMessagesByTokenBudget unit_encode (Some sample_history) (Num 10)) !! 0%nat
  = Some sample_system.
Proof.
  apply (trim_keeps_system_message unit_encode sample_history sample_system (Num 10));
    reflexivity.
Defined.

(** The sample history counts 21 and is returned as it is under a budget
    of 3000. *)
Lemma trim_identity_under_no_pressure_witness :
  trimMessagesByTokenBudget unit_encode (Some sample_history) (Num 3000)
  = {| messages := sample_history; totalTokens := 21 |}.
Proof.
  apply (trim_identity_under_no_pressure unit_encode sample_history (Num 3000)).
  - discriminate.
  - reflexivity.
Defined.

(** C6 as stated fails on the empty list: its count, 2, is within the
    budget, and the engine returns the seed list instead of the list it was
    given. *)
Lemma trim_identity_fails_on_empty :
  le_js (countTokensForMessagesArray unit_encode []) (Num 3000) = true /\
  trimMessagesByTokenBudget unit_encode (Some []) (Num 3000)
  <> {| messages := []; totalTokens := countTokensForMessagesArray unit_encode [] |}.
Proof.
  split; [reflexivity|].
  intros Heq. apply (f_equal messages) in Heq. discriminate Heq.
Qed.

(** Under a budget of 25 the older of two turns goes and the newer stays. *)
Lemma trim_evicts_oldest_first_witness :
  let older := {| role := "user"; content := "Mhoro"; ts := Some 7 |} in
  let newer := {| role := "assistant"; content := "Ndeipi"; ts := Some 8 |} in
  messages (trimMessagesByTokenBudget unit_encode
              (Some [sample_system; older; newer]) (Num 25))
  = [sample_system; newer] /\
  (1 < 2)%nat.
Proof.
  intros older newer.
  pose proof (trim_evicts_oldest_first unit_encode sample_system [older; newer] (Num 25))
    as (_ & Hout & _ & Hroles).
  split.
  - exact Hout.
  - apply (Hroles eq_refl 1%nat 2%nat older newer eq_refl).
    + discriminate.
    + lia.
    + vm_compute. lia.
    + reflexivity.
    + discriminate.
    + right. vm_compute. lia.
Defined.

(** The empty and the missing list, under no budget and under 3000. *)
Lemma trim_empty_reports_content_only_witness :
  messages (trimMessagesByTokenBudget unit_encode (Some []) NaN) = [seed_message None] /\
  totalTokens (trimMessagesByTokenBudget unit_encode None (Num 3000))
  = countTokensForMessagesArray unit_encode [seed_message None] - 6.
Proof.
  split.
  - apply (trim_empty_reports_content_only unit_encode (Some []) NaN). right. reflexivity.
  - apply (trim_empty_reports_content_only unit_encode None (Num 3000)). left. reflexivity.
Defined.

(** ** The store helpers *)

Section HandlerFacts.

Variable encode : string -> option (list nat).
Variable HISTORY_MAX_TOKENS : jsnum.
Variable create : list message -> outcome (option string).

Local Abbreviation ctc := (countTokensForContent encode).
Local Abbreviation count := (countTokensForMessagesArray encode).
Local Abbreviation trim := (trimMessagesByTokenBudget encode).

Lemma fault_at_pop (n : nat) (s : state) :
  fault_at n (pop_fault s) = fault_at (S n) s.
Proof.
  unfold fault_at, pop_fault. simpl. destruct (faults s); reflexivity.
Qed.

Lemma durable_uid_some (req : request) (s : state) (uid : string)
    (docs : gmap string user_doc) :
  req_user req = Some uid -> uid <> "" -> firestore s = Some docs ->
  durable_uid req s = Some uid.
Proof.
  intros Huser Hne Hfs. unfold durable_uid. rewrite Huser, Hfs.
  apply String.eqb_neq in Hne. rewrite Hne. reflexivity.
Qed.

(** [loadUserHistory] on a document that exists: one store call, no write. *)
Lemma loadUserHistory_existing (uid : string) (s : state)
    (docs : gmap string user_doc) (d : user_doc) :
  firestore s = Some docs -> docs !! uid = Some d ->
  loadUserHistory encode uid s
  = match fault_at 0 s with
    | Some err => (Throw err, pop_fault s)
    | None =>
        (Ret (Some {| loaded_history := history_or_seed d;
                      loaded_total_tokens := match total_tokens d with
                                             | Some t => t
                                             | None => 0
                                             end |}),
         pop_fault s)
    end.
Proof.
  intros Hfs Hdoc.
  unfold loadUserHistory, doc_get, store_call, get_state, ret, bind.
  rewrite Hfs. destruct (fault_at 0 s); [reflexivity|].
  simpl. rewrite Hfs, Hdoc. reflexivity.
Qed.

(** [saveUserHistory] with the store configured: one store call, then the
    merge of the three fields it writes. *)
Lemma saveUserHistory_durable (uid : string) (hist : list message) (tokens : Z)
    (s : state) (docs : gmap string user_doc) :
  firestore s = Some docs ->
  saveUserHistory uid hist tokens s
  = match fault_at 0 s with
    | Some err => (Throw err, pop_fault s)
    | None =>
        (Ret tt,
         with_docs (write_doc uid (save_fields hist tokens (clock s)) true docs)
                   (pop_fault s))
    end.
Proof.
  intros Hfs.
  unfold saveUserHistory, doc_set, store_call, get_state, Date_now, ret, bind.
  rewrite Hfs. destruct (fault_at 0 s); [reflexivity|].
  simpl. rewrite Hfs. reflexivity.
Qed.

Lemma addUserTokenUsage_durable (uid : string) (delta : Z) (s : state)
    (docs : gmap string user_doc) :
  firestore s = Some docs ->
  addUserTokenUsage uid delta s
  = match fault_at 0 s with
    | Some err => (Throw err, pop_fault s)
    | None =>
        (Ret tt,
         with_docs (write_doc uid (usage_update (docs !! uid) delta (clock s)) true docs)
                   (pop_fault s))
    end.
Proof.
  intros Hfs.
  unfold addUserTokenUsage, store_call, get_state, Date_now, ret, bind.
  rewrite Hfs. destruct (fault_at 0 s); [reflexivity|].
  simpl. rewrite Hfs. reflexivity.
Qed.

Lemma write_doc_lookup (uid : string) (data : user_doc) (merge : bool)
    (docs : gmap string user_doc) :
  write_doc uid data merge docs !! uid
  = Some (if merge then merged (docs !! uid) data else data).
Proof. unfold write_doc. apply lookup_insert_eq. Qed.

Lemma write_doc_other (uid other : string) (data : user_doc) (merge : bool)
    (docs : gmap string user_doc) :
  other <> uid -> write_doc uid data merge docs !! other = docs !! other.
Proof. intros Hne. unfold write_doc. apply lookup_insert_ne. congruence. Qed.

(** A merge that carries no [token_usage] leaves the stored one as it was. *)
Lemma merged_keeps_usage (snap : option user_doc) (data : user_doc) :
  token_usage data = None ->
  token_usage (merged snap data) = snap ≫= token_usage.
Proof.
  intros Hnone. destruct snap as [old|]; simpl; rewrite Hnone; reflexivity.
Qed.

(** ** Routes *)

(** C9. When the [message] field of the body is present and truthy but not
    a string, [/api/chat] answers 500 with error 'Failed to process chat':
    the [.trim()] call throws inside the [try]; nothing is written. *)
Theorem chat_non_string_message_is_500 (req : request) (v : json) (s : state) :
  body_message (body req) = Some v ->
  truthy v = true ->
  (forall text : string, v <> JStr text) ->
  api_chat encode HISTORY_MAX_TOKENS create req s
  = ({| status := 500;
        json_body := ErrorBody "Failed to process chat"
                       (Some (error_details not_a_function)) |}, s).
Proof.
  intros Hfield Htruthy Hnot_string.
  unfold api_chat, try_catch, chat_try, bind, message_text.
  rewrite Hfield, Htruthy.
  destruct v; try reflexivity.
  exfalso. eapply Hnot_string. reflexivity.
Qed.

(** The 400 answer is that of a missing, falsy or blank [message]. *)
Lemma chat_blank_message_is_400 (req : request) (s : state) :
  (body_message (body req) = None \/
   (exists v, body_message (body req) = Some v /\ truthy v = false) \/
   (exists text, body_message (body req) = Some (JStr text) /\ js_trim text = "")) ->
  api_chat encode HISTORY_MAX_TOKENS create req s
  = ({| status := 400; json_body := ErrorBody "message is required" None |}, s).
Proof.
  intros Hblank.
  unfold api_chat, try_catch, chat_try, bind, message_text.
  destruct Hblank as [-> | [(v & -> & ->) | (text & -> & Hempty)]]; try reflexivity.
  destruct (truthy (JStr text)); [rewrite Hempty|]; reflexivity.
Qed.

(** C8. For an authenticated identity with the store configured, a reset
    whose store call succeeds answers 200 and leaves the user's document
    with the seed history (the single system message) and the token count
    of the system prompt, while [token_usage] is what it was before; other
    documents and the session are untouched. *)
Theorem reset_keeps_usage (req : request) (uid : string) (s : state)
    (docs : gmap string user_doc) :
  req_user req = Some uid -> uid <> "" ->
  firestore s = Some docs ->
  fault_at 0 s = None ->
  exists (docs' : gmap string user_doc) (d' : user_doc),
    fst (api_reset encode req s)
    = {| status := 200; json_body := OkBody "User history reset." |} /\
    firestore (snd (api_reset encode req s)) = Some docs' /\
    docs' !! uid = Some d' /\
    history d' = Some [seed_message (Some (clock s))] /\
    total_tokens d' = Some (ctc SYSTEM_PROMPT) /\
    token_usage d' = docs !! uid ≫= token_usage /\
    (forall other : string, other <> uid -> docs' !! other = docs !! other) /\
    session (snd (api_reset encode req s)) = session s.
Proof.
  intros Huser Hne Hfs Hok.
  unfold api_reset, try_catch, reset_try, bind, get_state.
  rewrite (durable_uid_some req s uid docs Huser Hne Hfs).
  rewrite (saveUserHistory_durable uid _ _ s docs Hfs), Hok. simpl.
  eexists _, _. split; [reflexivity|]. split; [reflexivity|].
  split; [apply write_doc_lookup|].
  split; [destruct (docs !! uid); reflexivity|].
  split; [destruct (docs !! uid); reflexivity|].
  split; [apply merged_keeps_usage; reflexivity|].
  split; [|reflexivity].
  intros other Hother. apply write_doc_other. exact Hother.
Qed.

(** Code after which the state is as it was leaves the state of what ran
    before it. *)
Lemma bind_frame {A B} (m : M A) (k : A -> M B) (s : state) :
  (forall a s1, snd (k a s1) = s1) ->
  snd (bind m k s) = snd (m s).
Proof.
  intros Hpure. unfold bind. destruct (m s) as [[a|err] s1]; simpl; auto.
Qed.

Lemma loadUserHistory_session (uid : string) (s : state) :
  session (snd (loadUserHistory encode uid s)) = session s.
Proof.
  unfold loadUserHistory, doc_get, doc_set, store_call, get_state, Date_now, ret, bind.
  destruct (firestore s) as [docs|] eqn:Hfs; [|reflexivity].
  destruct (fault_at 0 s); [reflexivity|].
  simpl. rewrite Hfs.
  destruct (docs !! uid); [reflexivity|].
  simpl. destruct (fault_at 0 (pop_fault s)); [reflexivity|].
  simpl. rewrite Hfs. reflexivity.
Qed.

(** In the durable branch the builder leaves the state as the load left it. *)
Lemma buildConversation_durable_state (req : request) (userMessage : string)
    (s : state) (uid : string) :
  durable_uid req s = Some uid ->
  snd (buildConversation encode HISTORY_MAX_TOKENS req userMessage s)
  = snd (loadUserHistory encode uid s).
Proof.
  intros Hdur. unfold buildConversation. unfold bind at 1. unfold get_state at 1.
  rewrite Hdur. apply bind_frame. intros [ld|] s1; reflexivity.
Qed.

(** C5, as amended. In the durable branch the builder writes nothing of
    its own: the session is untouched and the store is as the load left it,
    which for a document that exists is as it was. In the anonymous branch
    the builder does write: the session history becomes the trimmed list it
    returns (the session history, seeded if missing, plus the user message)
    and the session token count the total it returns; the durable store is
    untouched. *)
Theorem buildConversation_effects (req : request) (userMessage : string) (s : state) :
  match durable_uid req s with
  | Some uid =>
      firestore (snd (buildConversation encode HISTORY_MAX_TOKENS req userMessage s))
      = firestore (snd (loadUserHistory encode uid s)) /\
      session (snd (buildConversation encode HISTORY_MAX_TOKENS req userMessage s))
      = session s /\
      forall (docs : gmap string user_doc) (d : user_doc),
        firestore s = Some docs -> docs !! uid = Some d ->
        firestore (snd (buildConversation encode HISTORY_MAX_TOKENS req userMessage s))
        = Some docs
  | None =>
      exists conv : conversation,
        buildConversation encode HISTORY_MAX_TOKENS req userMessage s
        = (Ret conv,
           with_session {| session_history := Some (conv_messages conv);
                           history_total_tokens := Some (conv_totalTokens conv) |} s) /\
        conv_messages conv
        = messages (trim (Some (anon_history s ++ [user_turn userMessage (clock s)])%list)
                         HISTORY_MAX_TOKENS)
  end.
Proof.
  destruct (durable_uid req s) as [uid|] eqn:Hdur.
  - rewrite (buildConversation_durable_state req userMessage s uid Hdur).
    split; [reflexivity | split; [apply loadUserHistory_session|]].
    intros docs d Hfs Hdoc.
    rewrite (loadUserHistory_existing uid s docs d Hfs Hdoc).
    destruct (fault_at 0 s); exact Hfs.
  - unfold buildConversation. unfold bind at 1. unfold get_state at 1. rewrite Hdur.
    unfold ensureAnonHistory, session_push, set_session, get_state, Date_now, ret, bind,
      anon_history, with_session.
    destruct (session_history (session s)) as [h|] eqn:Hsess;
      cbn [session session_history history_total_tokens firestore clock faults];
      rewrite ?Hsess;
      (eexists (Conversation _ _ _ _); split; reflexivity).
Qed.

Lemma message_text_string (req : request) (raw : string) (s : state) :
  body_message (body req) = Some (JStr raw) -> js_trim raw <> "" ->
  message_text (body req) s = (Ret (js_trim raw), s).
Proof.
  intros Hbody Hne. unfold message_text. rewrite Hbody. simpl.
  destruct (String.eqb_spec raw ""); [subst raw; exfalso; apply Hne; reflexivity|].
  reflexivity.
Qed.

Lemma fault_at_with_docs (n : nat) (docs : gmap string user_doc) (s : state) :
  fault_at n (with_docs docs s) = fault_at n s.
Proof. reflexivity. Qed.

Lemma persist_durable_run (uid userMessage reply : string) (used : Z) (s : state)
    (docs : gmap string user_doc) (d : user_doc) :
  firestore s = Some docs -> docs !! uid = Some d ->
  let now := clock s in
  let t := turn_history encode HISTORY_MAX_TOKENS d userMessage reply now in
  let saved := merged (Some d) (save_fields (messages t) (totalTokens t) now) in
  persist_durable encode HISTORY_MAX_TOKENS uid userMessage reply used s
  = match fault_at 0 s with
    | Some err => (Throw err, pop_fault s)
    | None =>
        match fault_at 1 s with
        | Some err => (Throw err, pop_fault (pop_fault s))
        | None =>
            match fault_at 2 s with
            | Some err =>
                (Throw err,
                 with_docs (<[uid := saved]> docs) (pop_fault (pop_fault (pop_fault s))))
            | None =>
                (Ret tt,
                 with_docs (<[uid := merged (Some saved) (usage_update (Some saved) used now)]> docs)
                           (pop_fault (pop_fault (pop_fault s))))
            end
        end
    end.
Proof.
  intros Hfs Hdoc now t saved.
  unfold persist_durable. unfold bind at 1.
  rewrite (loadUserHistory_existing uid s docs d Hfs Hdoc).
  destruct (fault_at 0 s) as [err0|]; [reflexivity|].
  unfold Date_now at 1, bind at 1. unfold bind at 1.
  cbn [loaded_history clock pop_fault]. fold now. fold t.
  rewrite (saveUserHistory_durable uid _ _ (pop_fault s) docs Hfs).
  rewrite fault_at_pop.
  destruct (fault_at 1 s) as [err1|]; [reflexivity|].
  erewrite addUserTokenUsage_durable by reflexivity.
  rewrite fault_at_with_docs, !fault_at_pop.
  destruct (fault_at 2 s) as [err2|].
  - unfold write_doc. rewrite Hdoc. reflexivity.
  - unfold write_doc. rewrite lookup_insert_eq, Hdoc, insert_insert_eq. reflexivity.
Qed.

Lemma chat_durable_run (req : request) (uid raw : string) (s : state)
    (docs : gmap string user_doc) (d : user_doc) :
  req_user req = Some uid -> uid <> "" ->
  firestore s = Some docs -> docs !! uid = Some d ->
  body_message (body req) = Some (JStr raw) -> js_trim raw <> "" ->
  let userMessage := js_trim raw in
  let now := clock s in
  let sent := outgoing_messages encode HISTORY_MAX_TOKENS d userMessage now in
  let failed := fun err =>
    {| status := 500;
       json_body := ErrorBody "Failed to process chat" (Some (error_details err)) |} in
  api_chat encode HISTORY_MAX_TOKENS create req s
  = match fault_at 0 s with
    | Some err => (failed err, pop_fault s)
    | None =>
        match create sent with
        | Throw err => (failed err, pop_fault s)
        | Ret completion =>
            let reply := reply_text completion in
            let t := turn_history encode HISTORY_MAX_TOKENS d userMessage reply now in
            let used := request_tokens encode sent reply in
            let saved := merged (Some d) (save_fields (messages t) (totalTokens t) now) in
            match fault_at 1 s with
            | Some err => (failed err, pop_fault (pop_fault s))
            | None =>
                match fault_at 2 s with
                | Some err => (failed err, pop_fault (pop_fault (pop_fault s)))
                | None =>
                    match fault_at 3 s with
                    | Some err =>
                        (failed err,
                         with_docs (<[uid := saved]> docs)
                           (pop_fault (pop_fault (pop_fault (pop_fault s)))))
                    | None =>
                        ({| status := 200;
                            json_body := ChatReply reply (count sent) (ctc reply) used |},
                         with_docs
                           (<[uid := merged (Some saved) (usage_update (Some saved) used now)]> docs)
                           (pop_fault (pop_fault (pop_fault (pop_fault s)))))
                    end
                end
            end
        end
    end.
Proof.
  intros Huser Huid Hfs Hdoc Hbody Hne userMessage now sent failed.
  unfold api_chat, try_catch, chat_try. unfold bind at 1.
  rewrite (message_text_string req raw s Hbody Hne).
  apply String.eqb_neq in Hne. rewrite Hne.
  unfold bind at 1. unfold buildConversation. unfold bind at 1. unfold get_state at 1.
  rewrite (durable_uid_some req s uid docs Huser Huid Hfs).
  unfold bind at 1.
  rewrite (loadUserHistory_existing uid s docs d Hfs Hdoc).
  destruct (fault_at 0 s) as [err0|] eqn:Hf0; [reflexivity|].
  unfold Date_now at 1, ret at 1, bind at 1.
  cbn [loaded_history conv_messages conv_uid persistsTo clock pop_fault].
  fold now. fold userMessage. 
  change (map bare _) with sent.
  unfold bind at 1.
  destruct (create sent) as [completion|errc]; [|reflexivity].
  apply String.eqb_neq in Huid. rewrite Huid.
  cbn [String.eqb Ascii.eqb Bool.eqb andb].
  unfold bind at 1.
  rewrite (persist_durable_run uid userMessage _ _ (pop_fault s) docs d Hfs Hdoc).
  rewrite !fault_at_pop. cbn [clock pop_fault]. fold now.
  destruct (fault_at 1 s); [reflexivity|].
  destruct (fault_at 2 s); [reflexivity|].
  destruct (fault_at 3 s); reflexivity.
Qed.

(** C3, as amended. For an authenticated [/api/chat] turn on a user
    document that exists, with a message that is not blank: the turn makes
    up to four store calls (load, load again, save, usage transaction) with
    the completion call after the first. If the first load, the completion,
    the second load or the save fails, the answer is 500 and the store is
    as it was. If they all succeed, the document has the re-trimmed history
    and its token count; the usage counter is then increased by the request
    tokens when the transaction succeeds (answer 200), and is as it was
    when the transaction fails (answer 500). *)
Theorem chat_persists_history_then_usage (req : request) (uid raw : string)
    (s : state) (docs : gmap string user_doc) (d : user_doc) :
  req_user req = Some uid -> uid <> "" ->
  firestore s = Some docs -> docs !! uid = Some d ->
  body_message (body req) = Some (JStr raw) -> js_trim raw <> "" ->
  let userMessage := js_trim raw in
  let now := clock s in
  let sent := outgoing_messages encode HISTORY_MAX_TOKENS d userMessage now in
  let out := api_chat encode HISTORY_MAX_TOKENS create req s in
  ((fault_at 0 s <> None \/ (exists err, create sent = Throw err) \/
    fault_at 1 s <> None \/ fault_at 2 s <> None) ->
   status (fst out) = 500 /\ firestore (snd out) = Some docs) /\
  (forall completion : option string,
     fault_at 0 s = None -> create sent = Ret completion ->
     fault_at 1 s = None -> fault_at 2 s = None ->
     let reply := reply_text completion in
     let t := turn_history encode HISTORY_MAX_TOKENS d userMessage reply now in
     exists d' : user_doc,
       firestore (snd out) = Some (<[uid := d']> docs) /\
       history d' = Some (map (stamp now) (messages t)) /\
       total_tokens d' = Some (totalTokens t) /\
       match fault_at 3 s with
       | Some err => status (fst out) = 500 /\ token_usage d' = token_usage d
       | None =>
           fst out = {| status := 200;
                        json_body := ChatReply reply (count sent) (ctc reply)
                                       (request_tokens encode sent reply) |} /\
           token_usage d'
           = Some {| total := current_usage (Some d) + request_tokens encode sent reply;
                     last_updated := now |}
       end).
Proof.
  intros Huser Huid Hfs Hdoc Hbody Hne userMessage now sent out.
  subst out.
  rewrite (chat_durable_run req uid raw s docs d Huser Huid Hfs Hdoc Hbody Hne).
  fold userMessage now sent. split.
  - intros Hfail.
    destruct (fault_at 0 s) as [err0|]; [split; [reflexivity | exact Hfs]|].
    destruct (create sent) as [completion|errc]; [|split; [reflexivity | exact Hfs]].
    destruct (fault_at 1 s) as [err1|]; [split; [reflexivity | exact Hfs]|].
    destruct (fault_at 2 s) as [err2|]; [split; [reflexivity | exact Hfs]|].
    exfalso. destruct Hfail as [Hf | [[err Hf] | [Hf | Hf]]]; congruence.
  - intros completion -> -> -> -> reply t.
    destruct (fault_at 3 s) as [err3|].
    + eexists. split; [reflexivity|]. repeat split; reflexivity.
    + eexists. split; [reflexivity|]. repeat split; reflexivity.
Qed.

End HandlerFacts.

(** ** The handlers on a sample store *)

Lemma chat_non_string_message_is_500_witness :
  status (fst (api_chat unit_encode (Num 3000) sample_create
                 {| req_user := None; body := Some (JObj [("message", JNum 5)]) |}
                 (sample_state [])))
  = 500.
Proof.
  rewrite (chat_non_string_message_is_500 unit_encode (Num 3000) sample_create
             {| req_user := None; body := Some (JObj [("message", JNum 5)]) |}
             (JNum 5) (sample_state [])).
  - reflexivity.
  - reflexivity.
  - reflexivity.
  - intros text. discriminate.
Defined.

(** After a reset the usage counter of the sample document is still 5. *)
Lemma reset_keeps_usage_witness :
  (firestore (snd (api_reset unit_encode sample_request (sample_state []))) ≫= (.!! "u1"))
  ≫= token_usage
  = Some {| total := 5; last_updated := 1 |}.
Proof.
  destruct (reset_keeps_usage unit_encode sample_request "u1" (sample_state [])
              {["u1" := sample_doc]} eq_refl ltac:(discriminate) eq_refl eq_refl)
    as (docs' & d' & _ & -> & Hdoc & _ & _ & Husage & _).
  simpl. rewrite Hdoc. simpl. rewrite Husage. reflexivity.
Defined.

(** C5 as stated fails for an anonymous turn: the builder itself seeds the
    session history and appends the user message to it. *)
Lemma buildConversation_writes_session :
  let s0 := {| firestore := None;
               session := {| session_history := None; history_total_tokens := None |};
               clock := 1000; faults := [] |} in
  let req := {| req_user := None; body := Some (JObj [("message", JStr "Mhoro")]) |} in
  session_history (session (snd (buildConversation unit_encode (Num 3000) req "Mhoro" s0)))
  = Some [seed_message (Some 1000); user_turn "Mhoro" 1000] /\
  session (snd (buildConversation unit_encode (Num 3000) req "Mhoro" s0)) <> session s0.
Proof.
  intros s0 req.
  assert (session_history
            (session (snd (buildConversation unit_encode (Num 3000) req "Mhoro" s0)))
          = Some [seed_message (Some 1000); user_turn "Mhoro" 1000]) as Hwritten
    by (vm_compute; reflexivity).
  split; [exact Hwritten|].
  intros Hsame. rewrite Hsame in Hwritten. discriminate Hwritten.
Qed.

(** The builder leaves the sample store as it is. *)
Lemma buildConversation_effects_witness :
  firestore (snd (buildConversation unit_encode (Num 3000) sample_request "Mhoro"
                    (sample_state [])))
  = Some {["u1" := sample_doc]}.
Proof.
  pose proof (buildConversation_effects unit_encode (Num 3000) sample_request "Mhoro"
                (sample_state [])) as Heffects.
  change (durable_uid sample_request (sample_state [])) with (Some "u1") in Heffects.
  destruct Heffects as (_ & _ & Hkept).
  apply (Hkept {["u1" := sample_doc]} sample_doc eq_refl).
  apply lookup_singleton_eq.
Defined.

(** C3 as stated fails when the save succeeds and the usage transaction
    then rejects (the fourth store call): the answer is 500, the stored
    history has the new user and assistant messages, and the usage counter
    is still 5. *)
Lemma chat_partial_persistence :
  let s0 := sample_state [None; None; None; Some store_unavailable] in
  let out := api_chat unit_encode (Num 3000) sample_create sample_request s0 in
  status (fst out) = 500 /\
  (firestore s0 ≫= (.!! "u1")) ≫= history = Some [seed_message (Some 1)] /\
  (firestore (snd out) ≫= (.!! "u1")) ≫= history
  = Some [seed_message (Some 1); user_turn "Mhoro" 1000;
          assistant_turn "Mhoro, ndeipi?" 1000] /\
  (firestore (snd out) ≫= (.!! "u1")) ≫= token_usage
  = (firestore s0 ≫= (.!! "u1")) ≫= token_usage.
Proof.
  vm_compute. repeat split; reflexivity.
Qed.

(** On a user without a document the first load of the turn creates it;
    it stays when the completion service then fails. *)
Example chat_seeds_missing_document :
  let s0 := {| firestore := Some ∅;
               session := {| session_history := None; history_total_tokens := None |};
               clock := 1000; faults := [] |} in
  let out := api_chat unit_encode (Num 3000) (fun _ => Throw store_unavailable)
               sample_request s0 in
  status (fst out) = 500 /\
  (firestore (snd out) ≫= (.!! "u1")) ≫= history = Some [seed_message (Some 1000)] /\
  (firestore (snd out) ≫= (.!! "u1")) ≫= token_usage
  = Some {| total := 0; last_updated := 1000 |}.
Proof.
  vm_compute. repeat split; reflexivity.
Qed.

(** On the sample store: a failing completion leaves the store as it is; a
    turn in which every call succeeds adds the request tokens to the 5. *)
Lemma chat_persists_history_then_usage_witness :
  firestore (snd (api_chat unit_encode (Num 3000)
                    (fun _ => Throw store_unavailable) sample_request (sample_state [])))
  = Some {["u1" := sample_doc]} /\
  exists d' : user_doc,
    firestore (snd (api_chat unit_encode (Num 3000) sample_create sample_request
                      (sample_state [])))
    = Some (<["u1" := d']> {["u1" := sample_doc]}) /\
    token_usage d'
    = Some {| total := 5 + request_tokens unit_encode
                             (outgoing_messages unit_encode (Num 3000) sample_doc "Mhoro" 1000)
                             "Mhoro, ndeipi?";
              last_updated := 1000 |}.
Proof.
  split.
  - apply (chat_persists_history_then_usage unit_encode (Num 3000)
             (fun _ => Throw store_unavailable) sample_request "u1" " Mhoro "
             (sample_state []) {["u1" := sample_doc]} sample_doc
             eq_refl ltac:(discriminate) eq_refl (lookup_singleton_eq _ _)
             eq_refl ltac:(discriminate)).
    right. left. exists store_unavailable. reflexivity.
  - destruct (proj2 (chat_persists_history_then_usage unit_encode (Num 3000)
                       sample_create sample_request "u1" " Mhoro "
                       (sample_state []) {["u1" := sample_doc]} sample_doc
                       eq_refl ltac:(discriminate) eq_refl (lookup_singleton_eq _ _)
                       eq_refl ltac:(discriminate))
                    (Some "Mhoro, ndeipi?") eq_refl eq_refl eq_refl eq_refl)
      as (d' & Hstore & _ & _ & _ & Husage).
    exists d'. split; [exact Hstore | exact Husage].
Defined.

(** ** Concurrent usage increments *)

Lemma committed_sum_insert (cs : list call) (i : nat) (c c' : call) :
  cs !! i = Some c ->
  committed_sum (<[i := c']> cs) = committed_sum cs - committed_delta c + committed_delta c'.
Proof.
  revert i. induction cs as [|c0 cs IH]; intros [|i] Hi; simpl in *; try discriminate.
  - injection Hi as ->. lia.
  - rewrite (IH i Hi). lia.
Qed.

Lemma tokensUsed_insert (cs : list call) (i : nat) (c : call) (ph : phase) :
  cs !! i = Some c ->
  map tokensUsed (<[i := Call (tokensUsed c) ph]> cs) = map tokensUsed cs.
Proof.
  revert i. induction cs as [|c0 cs IH]; intros [|i] Hi; simpl in *; try discriminate.
  - injection Hi as ->. reflexivity.
  - rewrite (IH i Hi). reflexivity.
Qed.

Lemma delta_sum_map (cs : list call) :
  delta_sum cs = foldr Z.add 0 (map tokensUsed cs).
Proof. induction cs as [|c cs IH]; simpl; [reflexivity | rewrite <- IH; reflexivity]. Qed.

Lemma committed_sum_pending (cs : list call) :
  all_pending cs -> committed_sum cs = 0.
Proof.
  induction 1 as [|c cs Hc _ IH]; simpl; [reflexivity|].
  unfold committed_delta. rewrite Hc, IH. reflexivity.
Qed.

Lemma committed_sum_all (cs : list call) :
  all_committed cs -> committed_sum cs = delta_sum cs.
Proof.
  induction 1 as [|c cs Hc _ IH]; simpl; [reflexivity|].
  unfold committed_delta. rewrite Hc, IH. reflexivity.
Qed.

(** The update function adds [tokensUsed] to the counter of the snapshot
    it read; a save leaves the counter alone. *)
Lemma usage_after_commit (d snap : option user_doc) (delta now : Z) :
  current_usage (Some (merged d (usage_update snap delta now)))
  = current_usage snap + delta.
Proof. destruct d; reflexivity. Qed.

Lemma usage_after_save (d : option user_doc) (hist : list message) (tokens now : Z) :
  current_usage (Some (merged d (save_fields hist tokens now))) = current_usage d.
Proof. destruct d; reflexivity. Qed.

Lemma fresh_read_stale (d d' : option user_doc) (v : nat) (cs : list call) :
  Forall (fresh_read d v) cs -> Forall (fresh_read d' (S v)) cs.
Proof.
  intros Hreads. apply (Forall_impl _ _ _ Hreads).
  intros c. unfold fresh_read.
  destruct (at_phase c); try exact id. intros [Hle _]. split; lia.
Qed.

Lemma tx_step_invariant (initial : Z) (deltas : list Z) (sys sys' : shared) :
  tx_step sys sys' -> tx_invariant initial deltas sys -> tx_invariant initial deltas sys'.
Proof.
  intros Hstep Hinv.
  destruct Hstep as [d v cs i delta Hi | d v cs i delta snap now Hi
                    | d v cs i delta snap seen Hi Hstale | d v cs i c Hi Hphase
                    | d v cs hist tokens now];
    unfold tx_invariant in *; cbn [doc version calls] in *;
    destruct Hinv as (Hcount & Hdeltas & Hreads);
    rewrite ?(committed_sum_insert cs i _ _ Hi);
    rewrite ?(tokensUsed_insert cs i _ _ Hi);
    unfold committed_delta; cbn [at_phase tokensUsed].
  - split; [lia | split; [exact Hdeltas|]].
    apply Forall_insert; [exact Hreads|]. split; [lia | reflexivity].
  - rewrite usage_after_commit.
    pose proof (Forall_lookup_1 _ _ _ _ Hreads Hi) as [_ Hsame].
    rewrite (Hsame eq_refl), Hcount.
    split; [lia | split; [exact Hdeltas|]].
    apply Forall_insert; [|exact I].
    apply (fresh_read_stale d). exact Hreads.
  - split; [lia | split; [exact Hdeltas|]].
    apply Forall_insert; [exact Hreads | exact I].
  - split; [|split; [exact Hdeltas|]].
    + destruct (at_phase c); try lia. congruence.
    + apply Forall_insert; [exact Hreads | exact I].
  - rewrite usage_after_save.
    split; [exact Hcount | split; [exact Hdeltas|]].
    apply (fresh_read_stale d). exact Hreads.
Qed.

(** In every reachable state the counter is the initial one plus the
    deltas of exactly the calls that have committed. *)
Lemma tx_reachable_invariant (start finish : shared) :
  all_pending (calls start) ->
  rtc tx_step start finish ->
  tx_invariant (current_usage (doc start)) (map tokensUsed (calls start)) finish.
Proof.
  intros Hpending. revert finish. apply rtc_ind_r.
  - split; [|split].
    + rewrite (committed_sum_pending _ Hpending). lia.
    + reflexivity.
    + apply (Forall_impl _ _ _ Hpending).
      intros c Hc. unfold fresh_read. rewrite Hc. exact I.
  - intros mid finish _ Hstep IH.
    exact (tx_step_invariant _ _ _ _ Hstep IH).
Qed.

(** C4. Start from any document with calls [addUserTokenUsage(uid, delta_i)]
    in flight for the same uid, none of which has run yet, and let them
    (and concurrent history saves) interleave in any order. Once every call
    has committed, the usage counter is its initial value plus the sum of
    all the deltas. *)
Theorem usage_increments_are_not_lost (start finish : shared) :
  all_pending (calls start) ->
  rtc tx_step start finish ->
  all_committed (calls finish) ->
  current_usage (doc finish) = current_usage (doc start) + delta_sum (calls start).
Proof.
  intros Hpending Hrun Hdone.
  destruct (tx_reachable_invariant start finish Hpending Hrun) as (Hcount & Hdeltas & _).
  rewrite Hcount, (committed_sum_all _ Hdone), !delta_sum_map, Hdeltas. reflexivity.
Qed.

(** The interleaving of the sample: both calls read, the first commits,
    the second is refused, reads again and commits. *)
Lemma sample_run : rtc tx_step sample_start sample_finish.
Proof.
  unfold sample_start, sample_finish.
  eapply rtc_l. { eapply (tx_get _ _ _ 0%nat 3). reflexivity. }
  eapply rtc_l. { eapply (tx_get _ _ _ 1%nat 4). reflexivity. }
  eapply rtc_l. { eapply (tx_commit _ _ _ 0%nat 3 (Some sample_doc) 1001). reflexivity. }
  eapply rtc_l.
  { eapply (tx_retry _ _ _ 1%nat 4 (Some sample_doc) 0%nat); [reflexivity | discriminate]. }
  eapply rtc_l. { eapply (tx_get _ _ _ 1%nat 4). reflexivity. }
  eapply rtc_l. { eapply (tx_commit _ _ _ 1%nat 4 (Some sample_after_first) 1002). reflexivity. }
  apply rtc_refl.
Qed.

(** Both increments of the sample arrive: 5 + 3 + 4. *)
Lemma usage_increments_are_not_lost_witness :
  current_usage (doc sample_finish) = 5 + (3 + (4 + 0)).
Proof.
  apply (usage_increments_are_not_lost sample_start sample_finish).
  - repeat constructor.
  - exact sample_run.
  - repeat constructor.
Defined.

(** Without the transaction the same interleaving loses the first
    increment: both calls read 5, and the second write makes the counter 9. *)
Example last_write_wins_loses_an_increment :
  exists finish : shared,
    rtc lww_step sample_start finish /\
    all_committed (calls finish) /\
    current_usage (doc finish) = 5 + 4.
Proof.
  eexists. split; [|split].
  - unfold sample_start.
    eapply rtc_l. { eapply (lww_get _ _ _ 0%nat 3). reflexivity. }
    eapply rtc_l. { eapply (lww_get _ _ _ 1%nat 4). reflexivity. }
    eapply rtc_l. { eapply (lww_set _ _ _ 0%nat 3 (Some sample_doc) 0%nat 1001). reflexivity. }
    eapply rtc_l. { eapply (lww_set _ _ _ 1%nat 4 (Some sample_doc) 0%nat 1002). reflexivity. }
    apply rtc_refl.
  - repeat constructor.
  - reflexivity.
Qed.

(** * Further properties *)

(** ** Counting and trimming *)

Section TrimmingLaws.

Variable encode : string -> option (list nat).

Local Abbreviation ctc := (countTokensForContent encode).
Local Abbreviation count := (countTokensForMessagesArray encode).
Local Abbreviation trim := (trimMessagesByTokenBudget encode).

Lemma count_concat (front back : list message) :
  count (front ++ back) = count front + count back - 2.
Proof.
  induction front as [|m front IH]; simpl app.
  - rewrite count_nil. lia.
  - rewrite !count_cons, IH. lia.
Qed.

(** The count of a concatenation is the sum of the counts with the
    conversation overhead of 2 counted once; so a list never counts less
    than one of its parts. *)
Theorem count_app (front back : list message) :
  countTokensForMessagesArray encode (front ++ back)
  = countTokensForMessagesArray encode front + countTokensForMessagesArray encode back - 2 /\
  countTokensForMessagesArray encode front
  <= countTokensForMessagesArray encode (front ++ back) /\
  countTokensForMessagesArray encode back
  <= countTokensForMessagesArray encode (front ++ back).
Proof.
  rewrite count_concat.
  pose proof (count_lower_bound encode front).
  pose proof (count_lower_bound encode back). lia.
Qed.

(** When [encode] throws on a non-empty text the estimate is the length
    over 4, rounded up: at least 1, and within 3 of a quarter of the
    length. *)
Theorem fallback_estimate_bounds (text : string) :
  encode text = None -> text <> "" ->
  1 <= countTokensForContent encode text /\
  Z.of_nat (String.length text) <= 4 * countTokensForContent encode text
  < Z.of_nat (String.length text) + 4.
Proof.
  intros Hthrows Hne. unfold countTokensForContent.
  apply String.eqb_neq in Hne. rewrite Hne, Hthrows.
  assert (1 <= String.length text)%nat as Hlen.
  { destruct text; [discriminate | simpl; lia]. }
  pose proof (Nat.div_mod_eq (String.length text + 3) 4) as Hdiv.
  pose proof (Nat.mod_upper_bound (String.length text + 3) 4 ltac:(lia)) as Hmod.
  lia.
Qed.

Lemma count_suffix_le (system : message) (rest : list message) (k : nat) :
  count (system :: drop k rest) <= count (system :: rest).
Proof.
  rewrite <- (take_drop k rest) at 2.
  rewrite !count_cons, count_concat.
  pose proof (count_lower_bound encode (take k rest)). lia.
Qed.

(** The loop runs only while the list is over budget: every shorter
    eviction was over budget. *)
Lemma trim_loop_minimal (system : message) (rest : list message) (total : Z)
    (maxTokens : jsnum) (j : nat) :
  total = count (system :: rest) ->
  (j < length rest - length (fst (trim_loop encode system rest total maxTokens)))%nat ->
  gt_js (count (system :: drop j rest)) maxTokens = true.
Proof.
  revert total j. induction rest as [|m rest IH]; intros total j Htot Hj; simpl in *.
  - lia.
  - destruct (gt_js total maxTokens) eqn:Hgt; simpl in Hj; [|lia].
    destruct j as [|j]; [simpl; rewrite <- Htot; exact Hgt|].
    simpl. apply (IH _ j eq_refl).
    destruct (trim_loop_suffix encode system rest (count (system :: rest)) maxTokens)
      as (k & Hk & Hfst).
    rewrite Hfst, length_drop in *. lia.
Qed.

(** Where the engine stops: with nothing left to evict, or within budget
    (or against a budget that is not a number). *)
Lemma trim_stop (h0 : message) (rest : list message) (B : jsnum) :
  let k := evicted_count (h0 :: rest) (trim (Some (h0 :: rest)) B) in
  k = length rest \/ gt_js (count (h0 :: drop k rest)) B = false.
Proof.
  intros k. subst k. unfold evicted_count, trimMessagesByTokenBudget.
  destruct (le_js (count (h0 :: rest)) B) eqn:Hle.
  - right. cbn [messages]. rewrite Nat.sub_diag. simpl drop.
    destruct B as [|b]; simpl in *; [reflexivity|].
    apply Z.ltb_ge. apply Z.leb_le in Hle. exact Hle.
  - destruct (trim_loop_suffix encode h0 rest (count (h0 :: rest)) B) as (k & Hk & Hfst).
    pose proof (trim_loop_total encode h0 rest (count (h0 :: rest)) B eq_refl) as Hsnd.
    pose proof (trim_loop_exit encode h0 rest (count (h0 :: rest)) B) as Hexit.
    destruct (trim_loop encode h0 rest (count (h0 :: rest)) B) as [kept total'].
    cbn [fst snd messages length] in *. subst kept. rewrite length_drop.
    replace (S (length rest) - S (length rest - k))%nat with k by lia.
    destruct Hexit as [Hnil | Hgt].
    + left. apply (f_equal length) in Hnil. rewrite length_drop in Hnil. simpl in Hnil. lia.
    + right. rewrite <- Hsnd. exact Hgt.
Qed.

(** The shape of the result in terms of the number of evicted messages. *)
Lemma trim_shape (h0 : message) (rest : list message) (B : jsnum) :
  let k := evicted_count (h0 :: rest) (trim (Some (h0 :: rest)) B) in
  (k <= length rest)%nat /\
  messages (trim (Some (h0 :: rest)) B) = h0 :: drop k rest.
Proof.
  intros k. subst k. unfold evicted_count.
  destruct (trim_nonempty encode h0 rest B) as (k & Hk & Hmsgs & _).
  rewrite Hmsgs. cbn [length]. rewrite length_drop.
  replace (S (length rest) - S (length rest - k))%nat with k by lia.
  split; [exact Hk | reflexivity].
Qed.

Lemma trim_minimal (h0 : message) (rest : list message) (B : jsnum) (j : nat) :
  (j < evicted_count (h0 :: rest) (trim (Some (h0 :: rest)) B))%nat ->
  gt_js (count (h0 :: drop j rest)) B = true.
Proof.
  unfold evicted_count, trimMessagesByTokenBudget.
  destruct (le_js (count (h0 :: rest)) B) eqn:Hle.
  - cbn [messages]. lia.
  - intros Hj. apply (trim_loop_minimal h0 rest (count (h0 :: rest)) B j eq_refl).
    destruct (trim_loop encode h0 rest (count (h0 :: rest)) B) as [kept total'].
    simpl in *. lia.
Qed.

(** The engine evicts no more than the budget forces: with [k] messages
    evicted, the list with only [j < k] of them evicted is over budget; and
    it stops only with nothing left to evict or within budget. *)
Theorem trim_evicts_no_more_than_needed (h0 : message) (rest : list message)
    (b : Z) (j : nat) :
  let k := evicted_count (h0 :: rest) (trim (Some (h0 :: rest)) (Num b)) in
  ((j < k)%nat -> b < count (h0 :: drop j rest)) /\
  (k = length rest \/ count (h0 :: drop k rest) <= b).
Proof.
  intros k. subst k. split.
  - intros Hj. apply Z.ltb_lt. exact (trim_minimal h0 rest (Num b) j Hj).
  - destruct (trim_stop h0 rest (Num b)) as [Hall | Hwithin]; [left; exact Hall|].
    right. apply Z.ltb_ge. exact Hwithin.
Qed.

(** Trimming a non-empty list a second time under the same budget changes
    nothing. *)
Theorem trim_idempotent (H : list message) (B : jsnum) :
  H <> [] ->
  trim (Some (messages (trim (Some H) B))) B = trim (Some H) B.
Proof.
  intros Hne. destruct H as [|h0 rest]; [congruence|].
  unfold trimMessagesByTokenBudget at 2 3.
  destruct (le_js (count (h0 :: rest)) B) eqn:Hle.
  - cbn [messages]. unfold trimMessagesByTokenBudget. rewrite Hle. reflexivity.
  - pose proof (trim_loop_total encode h0 rest (count (h0 :: rest)) B eq_refl) as Hsnd.
    pose proof (trim_loop_exit encode h0 rest (count (h0 :: rest)) B) as Hexit.
    destruct (trim_loop encode h0 rest (count (h0 :: rest)) B) as [kept total'].
    simpl in *. subst total'. unfold trimMessagesByTokenBudget.
    destruct (le_js (count (h0 :: kept)) B); [reflexivity|].
    destruct Hexit as [-> | Hgt]; [reflexivity|].
    destruct kept as [|m kept]; [reflexivity|].
    simpl. rewrite Hgt. reflexivity.
Qed.

(** Against a budget that is not a number no comparison holds: nothing is
    evicted from a non-empty list, whatever its size. *)
Theorem trim_nan_budget_keeps_everything (H : list message) :
  H <> [] ->
  trim (Some H) NaN = {| messages := H; totalTokens := count H |}.
Proof.
  intros Hne. destruct H as [|h0 rest]; [congruence|].
  unfold trimMessagesByTokenBudget. simpl le_js. cbv iota.
  destruct rest; reflexivity.
Qed.

(** The newest message of a list of at least two survives exactly when it
    fits beside the head: if [[H[0], last]] is within budget the result
    ends with [last]; if it is over budget the result is [[H[0]]] alone. *)
Theorem trim_keeps_newest_iff_it_fits (h0 newest : message) (middle : list message)
    (B : jsnum) :
  (gt_js (count [h0; newest]) B = false ->
   last (messages (trim (Some (h0 :: middle ++ [newest])) B)) = Some newest /\
   (2 <= length (messages (trim (Some (h0 :: middle ++ [newest])) B)))%nat) /\
  (gt_js (count [h0; newest]) B = true ->
   messages (trim (Some (h0 :: middle ++ [newest])) B) = [h0]).
Proof.
  pose proof (trim_shape h0 (middle ++ [newest]) B) as Hshape.
  cbv zeta in Hshape. destruct Hshape as (Hk & Hout).
  pose proof (trim_stop h0 (middle ++ [newest]) B) as Hstop. cbv zeta in Hstop.
  set (k := evicted_count (h0 :: middle ++ [newest])
              (trim (Some (h0 :: middle ++ [newest])) B)) in *.
  rewrite length_app in Hk, Hstop. simpl in Hk, Hstop.
  split.
  - intros Hfits.
    assert (k <= length middle)%nat as Hkept.
    { destruct (Nat.le_gt_cases k (length middle)) as [Hle | Hgt]; [exact Hle|].
      exfalso.
      pose proof (trim_minimal h0 (middle ++ [newest]) B (length middle) Hgt) as Hover.
      rewrite drop_app_length in Hover. congruence. }
    rewrite Hout, drop_app_le by exact Hkept. split.
    + rewrite app_comm_cons. apply last_snoc.
    + simpl. rewrite length_app. simpl. lia.
  - intros Hover. rewrite Hout.
    destruct (Nat.le_gt_cases k (length middle)) as [Hle | Hgt].
    + exfalso. destruct Hstop as [Hall | Hwithin]; [lia|].
      rewrite drop_app_le in Hwithin by exact Hle.
      assert (count [h0; newest] <= count (h0 :: drop k middle ++ [newest])) as Hmono.
      { rewrite !count_cons, count_concat, !count_cons, count_nil.
        pose proof (count_lower_bound encode (drop k middle)). lia. }
      destruct B as [|b]; unfold gt_js in *; [discriminate|].
      apply Z.ltb_lt in Hover. apply Z.ltb_ge in Hwithin. lia.
    + replace k with (length (middle ++ [newest]))
        by (rewrite length_app; simpl; lia).
      rewrite drop_all. reflexivity.
Qed.

(** A larger budget never evicts more. *)
Theorem trim_budget_monotone (h0 : message) (rest : list message) (b b' : Z) :
  b <= b' ->
  (evicted_count (h0 :: rest) (trim (Some (h0 :: rest)) (Num b'))
   <= evicted_count (h0 :: rest) (trim (Some (h0 :: rest)) (Num b)))%nat.
Proof.
  intros Hle.
  destruct (Nat.le_gt_cases
              (evicted_count (h0 :: rest) (trim (Some (h0 :: rest)) (Num b')))
              (evicted_count (h0 :: rest) (trim (Some (h0 :: rest)) (Num b))))
    as [Hok | Hmore]; [exact Hok | exfalso].
  pose proof (trim_minimal h0 rest (Num b') _ Hmore) as Hover.
  pose proof (trim_shape h0 rest (Num b')) as Hshape.
  cbv zeta in Hshape. destruct Hshape as (Hk' & _).
  destruct (trim_stop h0 rest (Num b)) as [Hall | Hwithin]; [lia|].
  unfold gt_js in Hover, Hwithin. apply Z.ltb_lt in Hover. apply Z.ltb_ge in Hwithin. lia.
Qed.

(** The engine never returns an empty list, and from a non-empty list it
    returns no more messages than it was given. *)
Theorem trim_result_size (msgs : option (list message)) (B : jsnum) :
  (1 <= length (messages (trim msgs B)))%nat /\
  forall H : list message,
    msgs = Some H -> H <> [] ->
    (length (messages (trim msgs B)) <= length H)%nat.
Proof.
  split.
  - destruct msgs as [[|h0 rest]|]; try (simpl; lia).
    destruct (trim_nonempty encode h0 rest B) as (k & _ & -> & _). simpl. lia.
  - intros H -> Hne. destruct H as [|h0 rest]; [congruence|].
    destruct (trim_nonempty encode h0 rest B) as (k & _ & -> & _).
    simpl. rewrite length_drop. lia.
Qed.

End TrimmingLaws.

(** ** Reasoning about handler code *)

Section Frames.

Variable R : state -> state -> Prop.
Hypothesis R_refl : forall s, R s s.
Hypothesis R_trans : forall s1 s2 s3, R s1 s2 -> R s2 s3 -> R s1 s3.

Lemma frames_pure {A} (m : M A) :
  (forall s, snd (m s) = s) -> frames R m.
Proof. intros Hpure s. rewrite Hpure. apply R_refl. Qed.

Lemma frames_bind {A B} (m : M A) (k : A -> M B) :
  frames R m -> (forall a, frames R (k a)) -> frames R (bind m k).
Proof.
  intros Hm Hk s. unfold bind. specialize (Hm s).
  destruct (m s) as [[a|err] s1]; simpl in *; [|exact Hm].
  exact (R_trans _ _ _ Hm (Hk a s1)).
Qed.

End Frames.

Lemma keeps_store_refl (s : state) : keeps_store s s.
Proof. split; reflexivity. Qed.

Lemma keeps_store_trans (s1 s2 s3 : state) :
  keeps_store s1 s2 -> keeps_store s2 s3 -> keeps_store s1 s3.
Proof. intros [H1 H2] [H3 H4]. split; congruence. Qed.

Lemma touches_only_refl (uid : string) (s : state) : touches_only uid s s.
Proof.
  split; [reflexivity|]. destruct (firestore s) as [docs|]; [|reflexivity].
  exists docs. split; [reflexivity | intros; reflexivity].
Qed.

Lemma touches_only_trans (uid : string) (s1 s2 s3 : state) :
  touches_only uid s1 s2 -> touches_only uid s2 s3 -> touches_only uid s1 s3.
Proof.
  intros [Hs12 Hd12] [Hs23 Hd23]. split; [congruence|].
  destruct (firestore s1) as [docs1|].
  - destruct Hd12 as (docs2 & Hfs2 & Hsame12). rewrite Hfs2 in Hd23.
    destruct Hd23 as (docs3 & Hfs3 & Hsame23).
    exists docs3. split; [exact Hfs3|].
    intros other Hne. rewrite (Hsame23 other Hne). apply Hsame12. exact Hne.
  - rewrite Hd12 in Hd23. exact Hd23.
Qed.

Lemma keeps_ret {A} (I : state -> Prop) (a : A) (Q : A -> Prop) :
  Q a -> keeps I (ret a) Q.
Proof. intros Hq s Hi. split; [exact Hi|]. intros a' [= <-]. exact Hq. Qed.

Lemma keeps_throw {A} (I : state -> Prop) (err : js_error) (Q : A -> Prop) :
  keeps I (throw err) Q.
Proof. intros s Hi. split; [exact Hi|]. intros a' [=]. Qed.

Lemma keeps_bind {A B} (I : state -> Prop) (m : M A) (k : A -> M B)
    (Q : A -> Prop) (Q' : B -> Prop) :
  keeps I m Q -> (forall a, Q a -> keeps I (k a) Q') -> keeps I (bind m k) Q'.
Proof.
  intros Hm Hk s Hi. unfold bind. destruct (Hm s Hi) as [Hi1 Hq].
  destruct (m s) as [[a|err] s1]; simpl in *.
  - exact (Hk a (Hq a eq_refl) s1 Hi1).
  - split; [exact Hi1|]. intros b [=].
Qed.

Lemma try_catch_state (m : M response) (handler : js_error -> response) (s : state) :
  snd (try_catch m handler s) = snd (m s).
Proof. unfold try_catch. destruct (m s) as [[r|err] s1]; reflexivity. Qed.

(** ** What the store helpers touch *)

Section HelperFrames.

Variable encode : string -> option (list nat).
Variable HISTORY_MAX_TOKENS : jsnum.
Variable create : list message -> outcome (option string).

Local Abbreviation ctc := (countTokensForContent encode).
Local Abbreviation count := (countTokensForMessagesArray encode).
Local Abbreviation trim := (trimMessagesByTokenBudget encode).

Lemma store_call_touches (uid : string) : frames (touches_only uid) store_call.
Proof.
  intros s. unfold store_call.
  destruct (fault_at 0 s); simpl; apply (touches_only_refl uid s).
Qed.

Lemma with_docs_touches (uid : string) (data : user_doc) (merge : bool) (s : state)
    (docs : gmap string user_doc) :
  firestore s = Some docs ->
  touches_only uid s (with_docs (write_doc uid data merge docs) s).
Proof.
  intros Hfs. split; [reflexivity|]. rewrite Hfs.
  eexists. split; [reflexivity|].
  intros other Hne. unfold write_doc. apply lookup_insert_ne. congruence.
Qed.

Lemma doc_get_touches (uid : string) : frames (touches_only uid) (doc_get uid).
Proof.
  unfold doc_get. apply frames_bind.
  - apply touches_only_trans.
  - apply store_call_touches.
  - intros _. apply frames_pure; [apply touches_only_refl|].
    intros s. destruct (firestore s); reflexivity.
Qed.

Lemma doc_set_touches (uid : string) (data : user_doc) (merge : bool) :
  frames (touches_only uid) (doc_set uid data merge).
Proof.
  unfold doc_set. apply frames_bind.
  - apply touches_only_trans.
  - apply store_call_touches.
  - intros _ s. destruct (firestore s) as [docs|] eqn:Hfs; simpl.
    + apply with_docs_touches. exact Hfs.
    + apply touches_only_refl.
Qed.

Lemma loadUserHistory_touches (uid : string) :
  frames (touches_only uid) (loadUserHistory encode uid).
Proof.
  unfold loadUserHistory.
  apply frames_bind; [apply touches_only_trans | |].
  { apply frames_pure; [apply touches_only_refl | reflexivity]. }
  intros s0. destruct (firestore s0).
  - apply frames_bind; [apply touches_only_trans | apply doc_get_touches |].
    intros [data|].
    + apply frames_pure; [apply touches_only_refl | reflexivity].
    + apply frames_bind; [apply touches_only_trans | |].
      { apply frames_pure; [apply touches_only_refl | reflexivity]. }
      intros now. apply frames_bind; [apply touches_only_trans | apply doc_set_touches |].
      intros _. apply frames_pure; [apply touches_only_refl | reflexivity].
  - apply frames_pure; [apply touches_only_refl | reflexivity].
Qed.

Lemma saveUserHistory_touches (uid : string) (hist : list message) (tokens : Z) :
  frames (touches_only uid) (saveUserHistory uid hist tokens).
Proof.
  unfold saveUserHistory.
  apply frames_bind; [apply touches_only_trans | |].
  { apply frames_pure; [apply touches_only_refl | reflexivity]. }
  intros s0. destruct (firestore s0).
  - apply frames_bind; [apply touches_only_trans | |].
    { apply frames_pure; [apply touches_only_refl | reflexivity]. }
    intros now. apply doc_set_touches.
  - apply frames_pure; [apply touches_only_refl | reflexivity].
Qed.

Lemma addUserTokenUsage_touches (uid : string) (delta : Z) :
  frames (touches_only uid) (addUserTokenUsage uid delta).
Proof.
  unfold addUserTokenUsage.
  apply frames_bind; [apply touches_only_trans | |].
  { apply frames_pure; [apply touches_only_refl | reflexivity]. }
  intros s0. destruct (firestore s0).
  - apply frames_bind; [apply touches_only_trans | apply store_call_touches |].
    intros _. apply frames_bind; [apply touches_only_trans | |].
    { apply frames_pure; [apply touches_only_refl | reflexivity]. }
    intros now s. destruct (firestore s) as [docs|] eqn:Hfs; simpl.
    + apply with_docs_touches. exact Hfs.
    + apply touches_only_refl.
  - apply frames_pure; [apply touches_only_refl | reflexivity].
Qed.

Lemma persist_durable_touches (uid userMessage reply : string) (used : Z) :
  frames (touches_only uid)
         (persist_durable encode HISTORY_MAX_TOKENS uid userMessage reply used).
Proof.
  unfold persist_durable.
  apply frames_bind; [apply touches_only_trans | apply loadUserHistory_touches |].
  intros [ld|].
  - apply frames_bind; [apply touches_only_trans | |].
    { apply frames_pure; [apply touches_only_refl | reflexivity]. }
    intros now.
    apply frames_bind; [apply touches_only_trans | apply saveUserHistory_touches |].
    intros _. apply addUserTokenUsage_touches.
  - apply frames_pure; [apply touches_only_refl | reflexivity].
Qed.

Lemma set_session_keeps_store (h : option (list message)) (t : option Z) :
  frames keeps_store (set_session h t).
Proof. intros s. split; reflexivity. Qed.

Lemma ensureAnonHistory_keeps_store : frames keeps_store (ensureAnonHistory encode).
Proof.
  intros s. unfold ensureAnonHistory, bind, get_state.
  destruct (session_history (session s)); split; reflexivity.
Qed.

Lemma session_push_keeps_store (m : message) : frames keeps_store (session_push m).
Proof.
  intros s. unfold session_push, bind, get_state.
  destruct (session_history (session s)); split; reflexivity.
Qed.

Lemma persist_session_keeps_store (reply : string) :
  frames keeps_store (persist_session encode HISTORY_MAX_TOKENS reply).
Proof.
  unfold persist_session.
  apply frames_bind; [apply keeps_store_trans | apply ensureAnonHistory_keeps_store |].
  intros _. apply frames_bind; [apply keeps_store_trans | |].
  { apply frames_pure; [apply keeps_store_refl | reflexivity]. }
  intros now.
  apply frames_bind; [apply keeps_store_trans | apply session_push_keeps_store |].
  intros _. apply frames_bind; [apply keeps_store_trans | |].
  { apply frames_pure; [apply keeps_store_refl | reflexivity]. }
  intros s1. apply set_session_keeps_store.
Qed.

Lemma message_text_pure (b : option json) (s : state) :
  snd (message_text b s) = s.
Proof.
  unfold message_text. destruct (body_message b) as [v|]; [|reflexivity].
  destruct (truthy v); [|reflexivity]. destruct v; reflexivity.
Qed.

End HelperFrames.

(** ** The system message stays first *)

Section HistoryInvariant.

Variable encode : string -> option (list nat).
Variable HISTORY_MAX_TOKENS : jsnum.
Variable create : list message -> outcome (option string).

Local Abbreviation ctc := (countTokensForContent encode).
Local Abbreviation count := (countTokensForMessagesArray encode).
Local Abbreviation trim := (trimMessagesByTokenBudget encode).

Lemma system_first_seed (t : option Z) : system_first [seed_message t].
Proof. exists (seed_message t), []. split; reflexivity. Qed.

Lemma system_first_app (h more : list message) :
  system_first h -> system_first (h ++ more)%list.
Proof.
  intros (m & rest & -> & Hrole). exists m, (rest ++ more)%list. split; [reflexivity | exact Hrole].
Qed.

Lemma system_first_stamp (now : Z) (h : list message) :
  system_first h -> system_first (map (stamp now) h).
Proof.
  intros (m & rest & -> & Hrole).
  exists (stamp now m), (map (stamp now) rest). split; [reflexivity | exact Hrole].
Qed.

Lemma system_first_trim (msgs : option (list message)) (B : jsnum) :
  (forall h, msgs = Some h -> system_first h) ->
  system_first (messages (trim msgs B)).
Proof.
  intros Hfirst. destruct msgs as [[|h0 rest]|]; try apply system_first_seed.
  destruct (Hfirst _ eq_refl) as (m & rest' & [= <- <-] & Hrole).
  destruct (trim_nonempty encode h0 rest B) as (k & _ & -> & _).
  exists h0, (drop k rest). split; [reflexivity | exact Hrole].
Qed.

Lemma doc_ok_merged (snap : option user_doc) (data : user_doc) :
  doc_ok data -> (forall d, snap = Some d -> doc_ok d) -> doc_ok (merged snap data).
Proof.
  intros Hdata Hsnap. destruct snap as [old|]; [|exact Hdata].
  specialize (Hsnap old eq_refl). unfold doc_ok in *. simpl.
  destruct (history data); [exact Hdata | exact Hsnap].
Qed.

Lemma store_ok_write (uid : string) (data : user_doc) (merge : bool) (s : state)
    (docs : gmap string user_doc) :
  firestore s = Some docs -> histories_ok s -> doc_ok data ->
  histories_ok (with_docs (write_doc uid data merge docs) s).
Proof.
  intros Hfs [Hsess Hstore] Hdata. split; [exact Hsess|].
  unfold store_ok in *. rewrite Hfs in Hstore. simpl.
  intros uid' d'. unfold write_doc. rewrite lookup_insert.
  destruct (decide (uid = uid')) as [<- | Hne].
  - intros [= <-]. destruct merge; [|exact Hdata].
    apply doc_ok_merged; [exact Hdata|]. intros d Hd. exact (Hstore uid d Hd).
  - apply Hstore.
Qed.

Lemma keeps_pure {A} (m : M A) (Q : A -> Prop) :
  (forall s, snd (m s) = s) ->
  (forall s a, histories_ok s -> fst (m s) = Ret a -> Q a) ->
  keeps histories_ok m Q.
Proof.
  intros Hpure Hres s Hi. rewrite Hpure. split; [exact Hi|].
  intros a Ha. exact (Hres s a Hi Ha).
Qed.

Lemma keeps_store_call : keeps histories_ok store_call (fun _ => True).
Proof.
  intros s Hi. unfold store_call. destruct (fault_at 0 s); simpl; split; auto.
Qed.

Lemma keeps_doc_get (uid : string) :
  keeps histories_ok (doc_get uid) (fun snap => forall d, snap = Some d -> doc_ok d).
Proof.
  unfold doc_get.
  apply (keeps_bind _ _ _ (fun _ => True)); [apply keeps_store_call|].
  intros _ _ s Hi. destruct (firestore s) as [docs|] eqn:Hfs; simpl.
  - split; [exact Hi|]. intros snap [= <-] d Hd.
    destruct Hi as [_ Hstore]. unfold store_ok in Hstore. rewrite Hfs in Hstore.
    exact (Hstore uid d Hd).
  - split; [exact Hi|]. intros snap [=].
Qed.

Lemma keeps_doc_set (uid : string) (data : user_doc) (merge : bool) :
  doc_ok data -> keeps histories_ok (doc_set uid data merge) (fun _ => True).
Proof.
  intros Hdata. unfold doc_set.
  apply (keeps_bind _ _ _ (fun _ => True)); [apply keeps_store_call|].
  intros _ _ s Hi. destruct (firestore s) as [docs|] eqn:Hfs; simpl.
  - split; [|auto]. apply store_ok_write; assumption.
  - split; [exact Hi | auto].
Qed.

Lemma keeps_get_state : keeps histories_ok get_state histories_ok.
Proof. intros s Hi. split; [exact Hi|]. intros a [= <-]. exact Hi. Qed.

Lemma keeps_Date_now : keeps histories_ok Date_now (fun _ => True).
Proof. intros s Hi. split; [exact Hi | auto]. Qed.

Lemma keeps_loadUserHistory (uid : string) :
  keeps histories_ok (loadUserHistory encode uid)
        (fun r => forall ld, r = Some ld -> system_first (loaded_history ld)).
Proof.
  unfold loadUserHistory.
  apply (keeps_bind _ _ _ histories_ok); [apply keeps_get_state|].
  intros s0 _. destruct (firestore s0).
  - apply (keeps_bind _ _ _ (fun snap => forall d, snap = Some d -> doc_ok d));
      [apply keeps_doc_get|].
    intros [data|] Hsnap.
    + apply keeps_ret. intros ld [= <-]. simpl.
      specialize (Hsnap data eq_refl). unfold doc_ok in Hsnap. unfold history_or_seed.
      destruct (history data); [exact Hsnap | apply system_first_seed].
    + apply (keeps_bind _ _ _ (fun _ => True)); [apply keeps_Date_now|].
      intros now _.
      apply (keeps_bind _ _ _ (fun _ => True)).
      { apply keeps_doc_set. apply system_first_seed. }
      intros _ _. apply keeps_ret. intros ld [= <-]. apply system_first_seed.
  - apply keeps_ret. intros ld [=].
Qed.

Lemma keeps_saveUserHistory (uid : string) (hist : list message) (tokens : Z) :
  system_first hist ->
  keeps histories_ok (saveUserHistory uid hist tokens) (fun _ => True).
Proof.
  intros Hfirst. unfold saveUserHistory.
  apply (keeps_bind _ _ _ histories_ok); [apply keeps_get_state|].
  intros s0 _. destruct (firestore s0).
  - apply (keeps_bind _ _ _ (fun _ => True)); [apply keeps_Date_now|].
    intros now _. apply keeps_doc_set. apply system_first_stamp. exact Hfirst.
  - apply keeps_ret. exact I.
Qed.

Lemma keeps_addUserTokenUsage (uid : string) (delta : Z) :
  keeps histories_ok (addUserTokenUsage uid delta) (fun _ => True).
Proof.
  unfold addUserTokenUsage.
  apply (keeps_bind _ _ _ histories_ok); [apply keeps_get_state|].
  intros s0 _. destruct (firestore s0).
  - apply (keeps_bind _ _ _ (fun _ => True)); [apply keeps_store_call|].
    intros _ _. apply (keeps_bind _ _ _ (fun _ => True)); [apply keeps_Date_now|].
    intros now _ s Hi. destruct (firestore s) as [docs|] eqn:Hfs; simpl.
    + split; [|auto]. apply store_ok_write; [exact Hfs | exact Hi | exact I].
    + split; [exact Hi | auto].
  - apply keeps_ret. exact I.
Qed.

Lemma keeps_set_session (h : list message) (t : option Z) :
  system_first h -> keeps histories_ok (set_session (Some h) t) (fun _ => True).
Proof.
  intros Hfirst s [_ Hstore]. split; [|auto]. split; [exact Hfirst | exact Hstore].
Qed.

Lemma keeps_ensureAnonHistory :
  keeps histories_ok (ensureAnonHistory encode) (fun _ => True).
Proof.
  unfold ensureAnonHistory.
  apply (keeps_bind _ _ _ histories_ok); [apply keeps_get_state|].
  intros s0 _. destruct (session_history (session s0)).
  - apply keeps_ret. exact I.
  - apply (keeps_bind _ _ _ (fun _ => True)); [apply keeps_Date_now|].
    intros now _. apply keeps_set_session. apply system_first_seed.
Qed.

Lemma keeps_session_push (m : message) :
  keeps histories_ok (session_push m) (fun _ => True).
Proof.
  unfold session_push.
  apply (keeps_bind _ _ _ histories_ok); [apply keeps_get_state|].
  intros s0 [Hsess _]. unfold session_ok in Hsess.
  destruct (session_history (session s0)) as [h|].
  - apply keeps_set_session. apply system_first_app. exact Hsess.
  - apply keeps_throw.
Qed.

Lemma keeps_persist_session (reply : string) :
  keeps histories_ok (persist_session encode HISTORY_MAX_TOKENS reply) (fun _ => True).
Proof.
  unfold persist_session.
  apply (keeps_bind _ _ _ (fun _ => True)); [apply keeps_ensureAnonHistory|].
  intros _ _. apply (keeps_bind _ _ _ (fun _ => True)); [apply keeps_Date_now|].
  intros now _. apply (keeps_bind _ _ _ (fun _ => True)); [apply keeps_session_push|].
  intros _ _.
  apply (keeps_bind _ _ _ histories_ok); [apply keeps_get_state|].
  intros s1 [Hsess _]. apply keeps_set_session. apply system_first_trim.
  intros h Hh. unfold session_ok in Hsess. rewrite Hh in Hsess. exact Hsess.
Qed.

Lemma keeps_persist_durable (uid userMessage reply : string) (used : Z) :
  keeps histories_ok
        (persist_durable encode HISTORY_MAX_TOKENS uid userMessage reply used)
        (fun _ => True).
Proof.
  unfold persist_durable.
  apply (keeps_bind _ _ _ _ _ (keeps_loadUserHistory uid)).
  intros [ld|] Hld; [|apply keeps_throw].
  apply (keeps_bind _ _ _ (fun _ => True)); [apply keeps_Date_now|].
  intros now _. apply (keeps_bind _ _ _ (fun _ => True)).
  - apply keeps_saveUserHistory. apply system_first_trim.
    intros h [= <-]. apply system_first_app. exact (Hld ld eq_refl).
  - intros _ _. apply keeps_addUserTokenUsage.
Qed.

Lemma keeps_buildConversation (req : request) (userMessage : string) :
  keeps histories_ok (buildConversation encode HISTORY_MAX_TOKENS req userMessage)
        (fun _ => True).
Proof.
  unfold buildConversation.
  apply (keeps_bind _ _ _ histories_ok); [apply keeps_get_state|].
  intros s0 _. destruct (durable_uid req s0) as [uid|].
  - apply (keeps_bind _ _ _ _ _ (keeps_loadUserHistory uid)).
    intros [ld|] _; [|apply keeps_throw].
    apply (keeps_bind _ _ _ (fun _ => True)); [apply keeps_Date_now|].
    intros now _. apply keeps_ret. exact I.
  - apply (keeps_bind _ _ _ (fun _ => True)); [apply keeps_ensureAnonHistory|].
    intros _ _. apply (keeps_bind _ _ _ (fun _ => True)); [apply keeps_Date_now|].
    intros now _. apply (keeps_bind _ _ _ (fun _ => True)); [apply keeps_session_push|].
    intros _ _. apply (keeps_bind _ _ _ histories_ok); [apply keeps_get_state|].
    intros s1 [Hsess _]. apply (keeps_bind _ _ _ (fun _ => True)).
    + apply keeps_set_session. apply system_first_trim.
      intros h Hh. unfold session_ok in Hsess. rewrite Hh in Hsess. exact Hsess.
    + intros _ _. apply keeps_ret. exact I.
Qed.

Lemma keeps_chat_try (req : request) :
  keeps histories_ok (chat_try encode HISTORY_MAX_TOKENS create req) (fun _ => True).
Proof.
  unfold chat_try.
  apply (keeps_bind _ _ _ (fun _ => True)).
  { apply keeps_pure; [apply message_text_pure | auto]. }
  intros userMessage _. destruct (String.eqb userMessage ""); [apply keeps_ret; exact I|].
  apply (keeps_bind _ _ _ (fun _ => True)); [apply keeps_buildConversation|].
  intros conv _. apply (keeps_bind _ _ _ (fun _ => True)).
  { apply keeps_pure; [reflexivity | auto]. }
  intros completion _. apply (keeps_bind _ _ _ (fun _ => True)).
  - destruct (String.eqb (persistsTo conv) "firestore");
      [|apply keeps_persist_session].
    destruct (conv_uid conv) as [uid|]; [|apply keeps_persist_session].
    destruct (String.eqb uid ""); [apply keeps_persist_session | apply keeps_persist_durable].
  - intros _ _. apply keeps_ret. exact I.
Qed.

Lemma keeps_reset_try (req : request) :
  keeps histories_ok (reset_try encode req) (fun _ => True).
Proof.
  unfold reset_try.
  apply (keeps_bind _ _ _ histories_ok); [apply keeps_get_state|].
  intros s0 _. destruct (durable_uid req s0) as [uid|].
  - apply (keeps_bind _ _ _ (fun _ => True)).
    + apply keeps_saveUserHistory. apply system_first_seed.
    + intros _ _. apply keeps_ret. exact I.
  - apply (keeps_bind _ _ _ (fun _ => True)); [apply keeps_Date_now|].
    intros now _. apply (keeps_bind _ _ _ (fun _ => True)).
    + apply keeps_set_session. apply system_first_seed.
    + intros _ _. apply keeps_ret. exact I.
Qed.

Lemma keeps_history_try (req : request) :
  keeps histories_ok (history_try encode req)
        (fun res => forall h, json_body res = HistoryBody h -> h = [] \/ system_first h).
Proof.
  unfold history_try.
  apply (keeps_bind _ _ _ histories_ok); [apply keeps_get_state|].
  intros s0 _. destruct (durable_uid req s0) as [uid|].
  - apply (keeps_bind _ _ _ _ _ (keeps_loadUserHistory uid)).
    intros [ld|] Hld; [|apply keeps_throw].
    apply keeps_ret. intros h [= <-]. right. exact (Hld ld eq_refl).
  - apply (keeps_bind _ _ _ (fun _ => True)); [apply keeps_ensureAnonHistory|].
    intros _ _. apply (keeps_bind _ _ _ histories_ok); [apply keeps_get_state|].
    intros s1 [Hsess _]. apply keeps_ret. intros h [= <-].
    unfold session_ok in Hsess. destruct (session_history (session s1)); auto.
Qed.

(** Whatever the request and whatever fails, [/api/chat], [/api/reset],
    [/api/history] and [/api/usage] leave every history they can reach, in
    the session and in the store, starting with a message of role system,
    if that was so before. *)
Theorem handlers_keep_system_message_first (req : request) (s : state) :
  histories_ok s ->
  histories_ok (snd (api_chat encode HISTORY_MAX_TOKENS create req s)) /\
  histories_ok (snd (api_reset encode req s)) /\
  histories_ok (snd (api_history encode req s)) /\
  histories_ok (snd (api_usage req s)).
Proof.
  intros Hok. unfold api_chat, api_reset, api_history. rewrite !try_catch_state.
  split; [exact (proj1 (keeps_chat_try req s Hok))|].
  split; [exact (proj1 (keeps_reset_try req s Hok))|].
  split; [exact (proj1 (keeps_history_try req s Hok))|].
  unfold api_usage. destruct (durable_uid req s) as [uid|]; [|exact Hok].
  rewrite try_catch_state.
  refine (proj1 (keeps_bind histories_ok _ _ _ (fun _ => True) (keeps_doc_get uid) _ s Hok)).
  intros [data|] _; apply keeps_ret; exact I.
Qed.

End HistoryInvariant.

(** ** The routes, branch by branch *)

Section RouteLaws.

Variable encode : string -> option (list nat).
Variable HISTORY_MAX_TOKENS : jsnum.
Variable create : list message -> outcome (option string).

Local Abbreviation ctc := (countTokensForContent encode).
Local Abbreviation count := (countTokensForMessagesArray encode).
Local Abbreviation trim := (trimMessagesByTokenBudget encode).

Lemma durable_uid_nonempty (req : request) (s : state) (uid : string) :
  durable_uid req s = Some uid -> String.eqb uid "" = false.
Proof.
  unfold durable_uid. destruct (req_user req) as [u|]; [|discriminate].
  destruct (firestore s); [|discriminate].
  destruct (String.eqb u "") eqn:Hu; [discriminate|]. intros [= <-]. exact Hu.
Qed.

Lemma durable_uid_store (req : request) (s : state) (uid : string) :
  durable_uid req s = Some uid -> exists docs, firestore s = Some docs.
Proof.
  unfold durable_uid. destruct (req_user req); [|discriminate].
  destruct (firestore s) as [docs|]; [|discriminate]. intros _. exists docs. reflexivity.
Qed.

(** What the builder returns in the durable branch. *)
Lemma buildConversation_durable_result (req : request) (userMessage : string)
    (s : state) (uid : string) (conv : conversation) :
  durable_uid req s = Some uid ->
  fst (buildConversation encode HISTORY_MAX_TOKENS req userMessage s) = Ret conv ->
  persistsTo conv = "firestore" /\ conv_uid conv = Some uid.
Proof.
  intros Hdur. unfold buildConversation. unfold bind at 1. unfold get_state at 1.
  rewrite Hdur. unfold bind at 1.
  destruct (loadUserHistory encode uid s) as [[[ld|]|err] s1]; simpl; try discriminate.
  intros [= <-]. split; reflexivity.
Qed.

(** The builder in the anonymous branch, run. *)
Lemma buildConversation_anon_run (req : request) (userMessage : string) (s : state) :
  durable_uid req s = None ->
  let t := trim (Some (anon_history s ++ [user_turn userMessage (clock s)])%list)
                HISTORY_MAX_TOKENS in
  buildConversation encode HISTORY_MAX_TOKENS req userMessage s
  = (Ret {| conv_messages := messages t; conv_totalTokens := totalTokens t;
            persistsTo := "session"; conv_uid := None |},
     with_session {| session_history := Some (messages t);
                     history_total_tokens := Some (totalTokens t) |} s).
Proof.
  intros Hdur t. subst t.
  unfold buildConversation. unfold bind at 1. unfold get_state at 1. rewrite Hdur.
  unfold ensureAnonHistory, session_push, set_session, get_state, Date_now, ret, bind,
    anon_history, with_session.
  destruct (session_history (session s)) as [h|] eqn:Hsess;
    cbn [session session_history history_total_tokens firestore clock faults];
    rewrite ?Hsess; reflexivity.
Qed.

(** [persist_session] on a session that has a history. *)
Lemma persist_session_run (reply : string) (s : state) (h : list message) :
  session_history (session s) = Some h ->
  let t := trim (Some (h ++ [assistant_turn reply (clock s)])%list) HISTORY_MAX_TOKENS in
  persist_session encode HISTORY_MAX_TOKENS reply s
  = (Ret tt,
     with_session {| session_history := Some (messages t);
                     history_total_tokens := Some (totalTokens t) |} s).
Proof.
  intros Hsess t. subst t.
  unfold persist_session, ensureAnonHistory, session_push, set_session, get_state,
    Date_now, ret, bind, with_session.
  rewrite Hsess. cbn [session session_history history_total_tokens firestore clock faults].
  rewrite Hsess. reflexivity.
Qed.

(** An anonymous [/api/chat] turn with a message that is not blank, run. *)
Lemma chat_anon_run (req : request) (raw : string) (s : state) :
  durable_uid req s = None ->
  body_message (body req) = Some (JStr raw) -> js_trim raw <> "" ->
  let now := clock s in
  let t1 := trim (Some (anon_history s ++ [user_turn (js_trim raw) now])%list)
                 HISTORY_MAX_TOKENS in
  let sent := map bare (messages t1) in
  api_chat encode HISTORY_MAX_TOKENS create req s
  = match create sent with
    | Throw err =>
        ({| status := 500;
            json_body := ErrorBody "Failed to process chat" (Some (error_details err)) |},
         with_session {| session_history := Some (messages t1);
                         history_total_tokens := Some (totalTokens t1) |} s)
    | Ret completion =>
        let reply := reply_text completion in
        let t2 := trim (Some (messages t1 ++ [assistant_turn reply now])%list)
                       HISTORY_MAX_TOKENS in
        ({| status := 200;
            json_body := ChatReply reply (count sent) (ctc reply)
                           (count sent + ctc reply) |},
         with_session {| session_history := Some (messages t2);
                         history_total_tokens := Some (totalTokens t2) |} s)
    end.
Proof.
  intros Hdur Hbody Hne now t1 sent.
  unfold api_chat, try_catch, chat_try. unfold bind at 1.
  rewrite (message_text_string req raw s Hbody Hne).
  apply String.eqb_neq in Hne. rewrite Hne.
  unfold bind at 1.
  rewrite (buildConversation_anon_run req (js_trim raw) s Hdur).
  cbn [conv_messages persistsTo conv_uid]. fold now. fold t1. fold sent.
  unfold bind at 1.
  destruct (create sent) as [completion|err]; [|reflexivity].
  cbn [String.eqb Ascii.eqb Bool.eqb andb].
  unfold bind at 1.
  erewrite persist_session_run by reflexivity.
  reflexivity.
Qed.

(** A successful anonymous turn answers 200 with [total = prompt +
    completion], makes no store call, and leaves in the session the history
    it had (seeded if it had none) with the user message appended and
    trimmed, then the reply appended and trimmed again, with the count of
    that last trim. *)
Theorem anonymous_chat_success (req : request) (raw : string) (s : state)
    (completion : option string) :
  durable_uid req s = None ->
  body_message (body req) = Some (JStr raw) -> js_trim raw <> "" ->
  let now := clock s in
  let t1 := trim (Some (anon_history s ++ [user_turn (js_trim raw) now])%list)
                 HISTORY_MAX_TOKENS in
  let reply := reply_text completion in
  let t2 := trim (Some (messages t1 ++ [assistant_turn reply now])%list)
                 HISTORY_MAX_TOKENS in
  create (map bare (messages t1)) = Ret completion ->
  fst (api_chat encode HISTORY_MAX_TOKENS create req s)
  = {| status := 200;
       json_body := ChatReply reply (count (map bare (messages t1))) (ctc reply)
                      (count (map bare (messages t1)) + ctc reply) |} /\
  session (snd (api_chat encode HISTORY_MAX_TOKENS create req s))
  = {| session_history := Some (messages t2);
       history_total_tokens := Some (totalTokens t2) |} /\
  keeps_store s (snd (api_chat encode HISTORY_MAX_TOKENS create req s)).
Proof.
  intros Hdur Hbody Hne now t1 reply t2 Hcreate.
  rewrite (chat_anon_run req raw s Hdur Hbody Hne). fold now t1. rewrite Hcreate.
  split; [reflexivity | split; [reflexivity | split; reflexivity]].
Qed.

(** When the completion call of an anonymous turn fails, the answer is 500
    with the error's details, and the user message stays in the session
    history (appended and trimmed by the builder) without a reply. *)
Theorem anonymous_chat_failure_keeps_user_message (req : request) (raw : string)
    (s : state) (err : js_error) :
  durable_uid req s = None ->
  body_message (body req) = Some (JStr raw) -> js_trim raw <> "" ->
  let t1 := trim (Some (anon_history s ++ [user_turn (js_trim raw) (clock s)])%list)
                 HISTORY_MAX_TOKENS in
  create (map bare (messages t1)) = Throw err ->
  fst (api_chat encode HISTORY_MAX_TOKENS create req s)
  = {| status := 500;
       json_body := ErrorBody "Failed to process chat" (Some (error_details err)) |} /\
  session (snd (api_chat encode HISTORY_MAX_TOKENS create req s))
  = {| session_history := Some (messages t1);
       history_total_tokens := Some (totalTokens t1) |} /\
  keeps_store s (snd (api_chat encode HISTORY_MAX_TOKENS create req s)).
Proof.
  intros Hdur Hbody Hne t1 Hcreate.
  rewrite (chat_anon_run req raw s Hdur Hbody Hne). fold t1. rewrite Hcreate.
  split; [reflexivity | split; [reflexivity | split; reflexivity]].
Qed.

(** A request that takes the durable branch never touches the session and
    writes no document but the one of its own uid, in [/api/chat],
    [/api/reset], [/api/history] and [/api/usage], whatever fails. *)
Theorem durable_requests_touch_only_their_document (req : request) (s : state)
    (uid : string) :
  durable_uid req s = Some uid ->
  touches_only uid s (snd (api_chat encode HISTORY_MAX_TOKENS create req s)) /\
  touches_only uid s (snd (api_reset encode req s)) /\
  touches_only uid s (snd (api_history encode req s)) /\
  touches_only uid s (snd (api_usage req s)).
Proof.
  intros Hdur. split; [|split; [|split]].
  - unfold api_chat. rewrite try_catch_state. unfold chat_try. unfold bind at 1.
    pose proof (message_text_pure (body req) s) as Hpure.
    destruct (message_text (body req) s) as [[um|err] s1]; simpl in Hpure; subst s1;
      [|apply touches_only_refl].
    destruct (String.eqb um ""); [apply touches_only_refl|].
    unfold bind at 1.
    pose proof (buildConversation_durable_state encode HISTORY_MAX_TOKENS req um s uid Hdur)
      as Hstate.
    pose proof (buildConversation_durable_result req um s uid) as Hres.
    pose proof (loadUserHistory_touches encode uid s) as Hload. rewrite <- Hstate in Hload.
    destruct (buildConversation encode HISTORY_MAX_TOKENS req um s) as [[conv|err] s1];
      simpl in Hload |- *; [|exact Hload].
    destruct (Hres conv Hdur eq_refl) as [Hp Hu].
    unfold bind at 1.
    destruct (create (map bare (conv_messages conv))) as [completion|err]; [|exact Hload].
    rewrite Hp, Hu, (durable_uid_nonempty _ _ _ Hdur).
    cbn [String.eqb Ascii.eqb Bool.eqb andb].
    rewrite bind_frame by reflexivity.
    eapply touches_only_trans; [exact Hload | apply persist_durable_touches].
  - unfold api_reset. rewrite try_catch_state.
    unfold reset_try. unfold bind at 1. unfold get_state at 1. rewrite Hdur.
    rewrite bind_frame by reflexivity. apply saveUserHistory_touches.
  - unfold api_history. rewrite try_catch_state.
    unfold history_try. unfold bind at 1. unfold get_state at 1. rewrite Hdur.
    rewrite bind_frame by (intros [ld|] s1; reflexivity). apply loadUserHistory_touches.
  - unfold api_usage. rewrite Hdur, try_catch_state.
    rewrite bind_frame by (intros [d|] s1; reflexivity). apply doc_get_touches.
Qed.

(** A request that does not take the durable branch (no verified user, or
    no store configured) makes no store call and leaves the store as it is,
    in all four routes. *)
Theorem anonymous_requests_leave_the_store (req : request) (s : state) :
  durable_uid req s = None ->
  keeps_store s (snd (api_chat encode HISTORY_MAX_TOKENS create req s)) /\
  keeps_store s (snd (api_reset encode req s)) /\
  keeps_store s (snd (api_history encode req s)) /\
  keeps_store s (snd (api_usage req s)).
Proof.
  intros Hdur. split; [|split; [|split]].
  - unfold api_chat. rewrite try_catch_state. unfold chat_try. unfold bind at 1.
    pose proof (message_text_pure (body req) s) as Hpure.
    destruct (message_text (body req) s) as [[um|err] s1]; simpl in Hpure; subst s1;
      [|apply keeps_store_refl].
    destruct (String.eqb um ""); [apply keeps_store_refl|].
    unfold bind at 1. rewrite (buildConversation_anon_run req um s Hdur).
    cbn [conv_messages persistsTo conv_uid]. unfold bind at 1.
    destruct (create _) as [completion|err]; [|split; reflexivity].
    cbn [String.eqb Ascii.eqb Bool.eqb andb].
    rewrite bind_frame by reflexivity.
    eapply keeps_store_trans;
      [|apply (persist_session_keeps_store encode HISTORY_MAX_TOKENS)].
    split; reflexivity.
  - unfold api_reset. rewrite try_catch_state.
    unfold reset_try. unfold bind at 1. unfold get_state at 1. rewrite Hdur.
    split; reflexivity.
  - unfold api_history. rewrite try_catch_state.
    unfold history_try. unfold bind at 1. unfold get_state at 1. rewrite Hdur.
    rewrite bind_frame by reflexivity. apply ensureAnonHistory_keeps_store.
  - unfold api_usage. rewrite Hdur. apply keeps_store_refl.
Qed.

Lemma buildConversation_same_branch (req req' : request) (userMessage : string)
    (s : state) :
  durable_uid req s = durable_uid req' s ->
  buildConversation encode HISTORY_MAX_TOKENS req userMessage s
  = buildConversation encode HISTORY_MAX_TOKENS req' userMessage s.
Proof.
  intros Hsame. unfold buildConversation. unfold bind at 1 3. unfold get_state at 1 3.
  rewrite Hsame. reflexivity.
Qed.

(** Without a store ([admin.firestore] missing) a request with a verified
    user is handled exactly as the same request without one: same answer,
    same state after, in [/api/chat], [/api/reset] and [/api/history]. *)
Theorem without_store_users_are_anonymous (req : request) (s : state) :
  firestore s = None ->
  let anon := {| req_user := None; body := body req |} in
  api_chat encode HISTORY_MAX_TOKENS create req s
  = api_chat encode HISTORY_MAX_TOKENS create anon s /\
  api_reset encode req s = api_reset encode anon s /\
  api_history encode req s = api_history encode anon s.
Proof.
  intros Hfs anon.
  assert (durable_uid req s = durable_uid anon s) as Hsame.
  { unfold durable_uid. rewrite Hfs. destruct (req_user req); reflexivity. }
  split; [|split].
  - unfold api_chat, try_catch, chat_try. unfold bind at 1 5.
    pose proof (message_text_pure (body req) s) as Hpure.
    change (body anon) with (body req).
    destruct (message_text (body req) s) as [[um|err] s1]; simpl in Hpure; subst s1;
      [|reflexivity].
    destruct (String.eqb um ""); [reflexivity|].
    unfold bind at 1 5.
    rewrite (buildConversation_same_branch req anon um s Hsame). reflexivity.
  - unfold api_reset, try_catch, reset_try. unfold bind at 1 4. unfold get_state at 1 2.
    rewrite Hsame. reflexivity.
  - unfold api_history, try_catch, history_try. unfold bind at 1 4.
    unfold get_state at 1 3. rewrite Hsame. reflexivity.
Qed.

Lemma doc_get_state (uid : string) (s : state) :
  snd (doc_get uid s) = pop_fault s.
Proof.
  unfold doc_get, store_call, bind.
  destruct (fault_at 0 s); [reflexivity|].
  change (firestore (pop_fault s)) with (firestore s).
  destruct (firestore s); reflexivity.
Qed.

(** [/api/usage] in the durable branch when its read succeeds. *)
Lemma api_usage_run (req : request) (s : state) (uid : string)
    (docs : gmap string user_doc) :
  durable_uid req s = Some uid -> firestore s = Some docs -> fault_at 0 s = None ->
  api_usage req s
  = ({| status := 200;
        json_body := match docs !! uid with
                     | Some data =>
                         match token_usage data with
                         | Some u => UsageBody (total u) (Some (last_updated u))
                         | None => UsageBody 0 None
                         end
                     | None => UsageBody 0 None
                     end |},
     pop_fault s).
Proof.
  intros Hdur Hfs Hok. unfold api_usage. rewrite Hdur.
  unfold try_catch, doc_get, store_call, ret, bind. rewrite Hok.
  cbn [firestore pop_fault]. rewrite Hfs.
  destruct (docs !! uid) as [data|]; reflexivity.
Qed.

(** After a durable turn answered 200, [/api/usage] reports the counter
    the document had before the turn plus exactly the [total] of the
    answer's token breakdown. *)
Theorem usage_reports_what_chat_charged (req : request) (uid raw : string)
    (s : state) (docs : gmap string user_doc) (d : user_doc)
    (reply : string) (prompt completion charged : Z) :
  req_user req = Some uid -> uid <> "" ->
  firestore s = Some docs -> docs !! uid = Some d ->
  body_message (body req) = Some (JStr raw) -> js_trim raw <> "" ->
  fst (api_chat encode HISTORY_MAX_TOKENS create req s)
  = {| status := 200; json_body := ChatReply reply prompt completion charged |} ->
  fault_at 4 s = None ->
  charged = prompt + completion /\
  fst (api_usage req (snd (api_chat encode HISTORY_MAX_TOKENS create req s)))
  = {| status := 200;
       json_body := UsageBody (current_usage (Some d) + charged) (Some (clock s)) |}.
Proof.
  intros Huser Huid Hfs Hdoc Hbody Hne.
  rewrite (chat_durable_run encode HISTORY_MAX_TOKENS create req uid raw s docs d
             Huser Huid Hfs Hdoc Hbody Hne).
  cbv zeta.
  destruct (fault_at 0 s); [discriminate|].
  destruct (create _) as [answer|err]; [|discriminate].
  destruct (fault_at 1 s); [discriminate|].
  destruct (fault_at 2 s); [discriminate|].
  destruct (fault_at 3 s); [discriminate|].
  cbn [fst snd]. intros [= <- <- <- <-] Hok. split; [reflexivity|].
  match goal with
  | |- context [api_usage req (with_docs ?written ?st)] =>
      rewrite (api_usage_run req (with_docs written st) uid written)
  end.
  - cbn [fst]. rewrite lookup_insert_eq. reflexivity.
  - unfold durable_uid. rewrite Huser. cbn [firestore with_docs].
    apply String.eqb_neq in Huid. rewrite Huid. reflexivity.
  - reflexivity.
  - rewrite fault_at_with_docs, !fault_at_pop. exact Hok.
Qed.

(** [/api/usage] answers 401 exactly when the request does not take the
    durable branch, never writes, and on a successful read reports the
    stored counter, 0 when the document or its counter is missing. *)
Theorem usage_route_reads_the_counter (req : request) (s : state) :
  (status (fst (api_usage req s)) = 401 <-> durable_uid req s = None) /\
  firestore (snd (api_usage req s)) = firestore s /\
  session (snd (api_usage req s)) = session s /\
  forall (uid : string) (docs : gmap string user_doc),
    durable_uid req s = Some uid -> firestore s = Some docs -> fault_at 0 s = None ->
    status (fst (api_usage req s)) = 200 /\
    exists updated : option Z,
      json_body (fst (api_usage req s)) = UsageBody (current_usage (docs !! uid)) updated.
Proof.
  split; [|split; [|split]].
  - unfold api_usage. destruct (durable_uid req s) as [uid|] eqn:Hdur.
    + split; [|discriminate]. unfold try_catch.
      destruct (bind (doc_get uid) _ s) as [[res|err] s1] eqn:Hrun; simpl.
      * unfold doc_get, store_call, ret, bind in Hrun.
        destruct (fault_at 0 s); [discriminate|]. simpl in Hrun.
        destruct (firestore s) as [docs|]; [|discriminate].
        destruct (docs !! uid) as [data|]; injection Hrun as <- _; discriminate.
      * discriminate.
    + split; reflexivity.
  - unfold api_usage. destruct (durable_uid req s) as [uid|]; [|reflexivity].
    rewrite try_catch_state.
    rewrite bind_frame by (intros [data|] s1; reflexivity).
    rewrite doc_get_state. reflexivity.
  - unfold api_usage. destruct (durable_uid req s) as [uid|]; [|reflexivity].
    rewrite try_catch_state.
    rewrite bind_frame by (intros [data|] s1; reflexivity).
    rewrite doc_get_state. reflexivity.
  - intros uid docs Hdur Hfs Hok.
    rewrite (api_usage_run req s uid docs Hdur Hfs Hok). cbn [fst status json_body].
    split; [reflexivity|].
    destruct (docs !! uid) as [data|]; [|eexists; reflexivity].
    simpl. destruct (token_usage data); eexists; reflexivity.
Qed.


(** After a reset that succeeded, in either branch, [/api/history] answers
    exactly the single system message, stamped with the time of the reset. *)
Theorem history_after_reset_is_the_seed (req : request) (s : state) :
  fault_at 0 s = None -> fault_at 1 s = None ->
  fst (api_history encode req (snd (api_reset encode req s)))
  = {| status := 200; json_body := HistoryBody [seed_message (Some (clock s))] |}.
Proof.
  intros Hok0 Hok1.
  destruct (durable_uid req s) as [uid|] eqn:Hdur.
  - destruct (durable_uid_store req s uid Hdur) as (docs & Hfs).
    assert (snd (api_reset encode req s)
            = with_docs (write_doc uid (save_fields [seed_message None]
                                          (ctc SYSTEM_PROMPT) (clock s)) true docs)
                        (pop_fault s)) as ->.
    { unfold api_reset, try_catch, reset_try. unfold bind at 1. unfold get_state at 1.
      rewrite Hdur. unfold bind at 1.
      rewrite (saveUserHistory_durable uid _ _ s docs Hfs), Hok0. reflexivity. }
    unfold api_history, try_catch, history_try. unfold bind at 1. unfold get_state at 1.
    assert (durable_uid req (with_docs (write_doc uid (save_fields [seed_message None]
                                          (ctc SYSTEM_PROMPT) (clock s)) true docs)
                                       (pop_fault s)) = Some uid) as ->.
    { unfold durable_uid in *. rewrite Hfs in Hdur. exact Hdur. }
    unfold bind at 1.
    erewrite loadUserHistory_existing; [|reflexivity | apply write_doc_lookup].
    rewrite fault_at_with_docs, fault_at_pop, Hok1.
    destruct (docs !! uid); reflexivity.
  - assert (snd (api_reset encode req s)
            = with_session {| session_history := Some [seed_message (Some (clock s))];
                              history_total_tokens := Some (ctc SYSTEM_PROMPT) |} s) as ->.
    { unfold api_reset, try_catch, reset_try. unfold bind at 1. unfold get_state at 1.
      rewrite Hdur. reflexivity. }
    unfold api_history, try_catch, history_try. unfold bind at 1. unfold get_state at 1.
    assert (durable_uid req (with_session
                               {| session_history := Some [seed_message (Some (clock s))];
                                  history_total_tokens := Some (ctc SYSTEM_PROMPT) |} s)
            = None) as -> by exact Hdur.
    reflexivity.
Qed.

End RouteLaws.

(** ** The store helpers, composed *)

Section StoreLaws.

Variable encode : string -> option (list nat).

Local Abbreviation ctc := (countTokensForContent encode).

(** What [saveUserHistory] saved is what [loadUserHistory] loads next: the
    history with every message stamped, and the token count; that load
    writes nothing. *)
Theorem load_after_save (uid : string) (hist : list message) (tokens : Z)
    (s : state) (docs : gmap string user_doc) :
  firestore s = Some docs ->
  fault_at 0 s = None -> fault_at 1 s = None ->
  let saved := snd (saveUserHistory uid hist tokens s) in
  fst (loadUserHistory encode uid saved)
  = Ret (Some {| loaded_history := map (stamp (clock s)) hist;
                 loaded_total_tokens := tokens |}) /\
  firestore (snd (loadUserHistory encode uid saved)) = firestore saved.
Proof.
  intros Hfs Hok0 Hok1 saved. subst saved.
  rewrite (saveUserHistory_durable uid hist tokens s docs Hfs), Hok0. cbn [snd].
  erewrite loadUserHistory_existing; [|reflexivity | apply write_doc_lookup].
  rewrite fault_at_with_docs, fault_at_pop, Hok1.
  split; [|reflexivity].
  destruct (docs !! uid); reflexivity.
Qed.

(** Two increments in a row add up: the counter ends at what it was (0 for
    a missing document or counter) plus both deltas, while the stored
    history and every other document are as they were. *)
Theorem usage_increments_add_up (uid : string) (first second : Z) (s : state)
    (docs : gmap string user_doc) :
  firestore s = Some docs ->
  fault_at 0 s = None -> fault_at 1 s = None ->
  exists docs' : gmap string user_doc,
    firestore (snd (addUserTokenUsage uid second (snd (addUserTokenUsage uid first s))))
    = Some docs' /\
    current_usage (docs' !! uid) = current_usage (docs !! uid) + first + second /\
    docs' !! uid ≫= history = docs !! uid ≫= history /\
    forall other : string, other <> uid -> docs' !! other = docs !! other.
Proof.
  intros Hfs Hok0 Hok1.
  rewrite (addUserTokenUsage_durable uid first s docs Hfs), Hok0. cbn [snd].
  erewrite addUserTokenUsage_durable by reflexivity.
  rewrite fault_at_with_docs, fault_at_pop, Hok1. cbn [snd firestore with_docs].
  eexists. split; [reflexivity|]. split; [|split].
  - rewrite !write_doc_lookup. cbn [current_usage token_usage usage_update merged].
    destruct (docs !! uid) as [d|]; simpl; lia.
  - rewrite !write_doc_lookup. destruct (docs !! uid) as [d|]; reflexivity.
  - intros other Hne. rewrite !write_doc_other by exact Hne. reflexivity.
Qed.

(** The first load for a user without a document creates it: that load
    returns the seed history, and the next load returns the same single
    system message, now stamped, with the same token count, finds the usage
    counter at 0 and writes nothing more. *)
Theorem load_seeds_once (uid : string) (s : state) (docs : gmap string user_doc) :
  firestore s = Some docs -> docs !! uid = None ->
  fault_at 0 s = None -> fault_at 1 s = None -> fault_at 2 s = None ->
  let seeded := snd (loadUserHistory encode uid s) in
  fst (loadUserHistory encode uid s)
  = Ret (Some {| loaded_history := [seed_message None];
                 loaded_total_tokens := ctc SYSTEM_PROMPT |}) /\
  fst (loadUserHistory encode uid seeded)
  = Ret (Some {| loaded_history := [seed_message (Some (clock s))];
                 loaded_total_tokens := ctc SYSTEM_PROMPT |}) /\
  firestore (snd (loadUserHistory encode uid seeded)) = firestore seeded /\
  (firestore seeded ≫= (.!! uid)) ≫= token_usage
  = Some {| total := 0; last_updated := clock s |}.
Proof.
  intros Hfs Hdoc Hok0 Hok1 Hok2 seeded. subst seeded.
  assert (loadUserHistory encode uid s
          = (Ret (Some {| loaded_history := [seed_message None];
                          loaded_total_tokens := ctc SYSTEM_PROMPT |}),
             with_docs
               (write_doc uid
                  {| history := Some [seed_message (Some (clock s))];
                     total_tokens := Some (ctc SYSTEM_PROMPT);
                     token_usage := Some {| total := 0; last_updated := clock s |};
                     updated_at := Some (clock s) |} false docs)
               (pop_fault (pop_fault s)))) as Hfirst.
  { unfold loadUserHistory, doc_get, doc_set, store_call, get_state, Date_now, ret, bind.
    rewrite Hfs, Hok0. cbn [firestore pop_fault]. rewrite Hfs, Hdoc.
    rewrite fault_at_pop, Hok1. cbn [firestore pop_fault clock]. rewrite Hfs.
    reflexivity. }
  rewrite Hfirst. cbn [fst snd].
  erewrite loadUserHistory_existing; [|reflexivity | apply write_doc_lookup].
  rewrite fault_at_with_docs, !fault_at_pop, Hok2.
  split; [reflexivity|]. split; [reflexivity|]. split; [reflexivity|].
  cbn [firestore with_docs]. simpl. rewrite write_doc_lookup. reflexivity.
Qed.

End StoreLaws.

(** ** Authentication middleware *)

Lemma strip_prefix_app (p s rest : string) :
  strip_prefix p s = Some rest -> s = (p ++ rest)%string.
Proof.
  revert s. induction p as [|a p IH]; intros s Hstrip; simpl in *.
  - injection Hstrip as ->. reflexivity.
  - destruct s as [|b s]; [discriminate|].
    destruct (Ascii.eqb_spec a b) as [<- | Hne]; [|discriminate].
    rewrite (IH s Hstrip). reflexivity.
Qed.

Lemma trim_end_idempotent (s : string) : trim_end (trim_end s) = trim_end s.
Proof.
  induction s as [|c s IH]; [reflexivity|]. simpl.
  destruct (trim_end s) as [|c' kept] eqn:Hkept.
  - destruct (is_js_space c) eqn:Hc; [reflexivity|]. simpl. rewrite Hc. reflexivity.
  - change (trim_end (String c (String c' kept))) with
      (match trim_end (String c' kept) with
       | EmptyString => if is_js_space c then EmptyString else String c EmptyString
       | kept' => String c kept'
       end).
    rewrite IH. reflexivity.
Qed.

Lemma trim_end_head (c : ascii) (s : string) :
  is_js_space c = false -> exists kept, trim_end (String c s) = String c kept.
Proof.
  intros Hc. simpl. destruct (trim_end s) as [|c' kept].
  - rewrite Hc. eexists. reflexivity.
  - eexists. reflexivity.
Qed.

Lemma trim_start_head (s : string) :
  trim_start s = EmptyString \/
  exists c more, trim_start s = String c more /\ is_js_space c = false.
Proof.
  induction s as [|c s IH]; [left; reflexivity|]. simpl.
  destruct (is_js_space c) eqn:Hc; [exact IH|].
  right. exists c, s. split; [reflexivity | exact Hc].
Qed.

Lemma js_trim_idempotent (s : string) : js_trim (js_trim s) = js_trim s.
Proof.
  unfold js_trim.
  destruct (trim_start_head s) as [-> | (c & more & -> & Hc)]; [reflexivity|].
  destruct (trim_end_head c more Hc) as (kept & Hkept).
  rewrite Hkept. simpl trim_start. rewrite Hc. rewrite <- Hkept.
  apply trim_end_idempotent.
Qed.

(** A request carries a user only when its [Authorization] header starts
    with 'Bearer ', the Admin SDK is ready, and [verifyIdToken] resolved,
    to that uid, on the token: the text between the prefix and the next
    'Bearer ', trimmed, and not empty. An absent or malformed header, a
    blank token and a rejected token all leave the request anonymous. *)
Theorem authenticated_only_by_a_verified_token (admin_ready : bool)
    (verifyIdToken : string -> outcome string) (authorization : option string)
    (uid : string) :
  maybeAuthenticate admin_ready verifyIdToken authorization = Some uid ->
  exists rest token : string,
    authorization = Some ("Bearer " ++ rest)%string /\
    token = js_trim (until_separator "Bearer " rest) /\
    token <> "" /\ js_trim token = token /\
    admin_ready = true /\
    verifyIdToken token = Ret uid.
Proof.
  unfold maybeAuthenticate, bearer_token. intros Hauth.
  destruct (strip_prefix "Bearer "
              match authorization with Some h => h | None => "" end)
    as [rest|] eqn:Hstrip; [|discriminate].
  destruct authorization as [header|]; [|discriminate].
  apply strip_prefix_app in Hstrip. subst header.
  cbv zeta in Hauth.
  destruct (String.eqb_spec (js_trim (until_separator "Bearer " rest)) "")
    as [Hblank | Hne]; [discriminate|].
  destruct admin_ready; [|discriminate].
  destruct (verifyIdToken (js_trim (until_separator "Bearer " rest))) as [u|err] eqn:Hv;
    [|discriminate].
  injection Hauth as <-.
  exists rest, (js_trim (until_separator "Bearer " rest)).
  repeat split; auto. apply js_trim_idempotent.
Qed.

(** * The further properties on the sample data *)

Lemma sample_state_ok : histories_ok (sample_state []).
Proof.
  split; [exact I|]. intros uid d Hd.
  apply lookup_singleton_Some in Hd as [_ <-].
  apply system_first_seed.
Qed.

Lemma sample_durable : durable_uid sample_request (sample_state []) = Some "u1".
Proof. reflexivity. Qed.

Lemma sample_lookup : ({["u1" := sample_doc]} : gmap string user_doc) !! "u1" = Some sample_doc.
Proof. apply lookup_singleton_eq. Qed.

(** A five-letter text under a tokenizer that throws: 2 tokens. *)
Lemma fallback_estimate_bounds_witness :
  1 <= countTokensForContent throwing_encode "Mhoro" /\
  Z.of_nat (String.length "Mhoro") <= 4 * countTokensForContent throwing_encode "Mhoro"
  < Z.of_nat (String.length "Mhoro") + 4.
Proof.
  apply (fallback_estimate_bounds throwing_encode "Mhoro"); [reflexivity | discriminate].
Defined.

(** Under a budget of 25 one turn is evicted, because all three messages
    count 31. *)
Lemma trim_evicts_no_more_than_needed_witness :
  25 < countTokensForMessagesArray unit_encode
         (sample_system :: drop 0 [sample_older; sample_newer]).
Proof.
  apply (proj1 (trim_evicts_no_more_than_needed unit_encode sample_system
                  [sample_older; sample_newer] 25 0%nat)).
  vm_compute. lia.
Defined.

Lemma trim_idempotent_witness :
  trimMessagesByTokenBudget unit_encode
    (Some (messages (trimMessagesByTokenBudget unit_encode (Some sample_history) (Num 10))))
    (Num 10)
  = trimMessagesByTokenBudget unit_encode (Some sample_history) (Num 10).
Proof.
  apply (trim_idempotent unit_encode sample_history (Num 10)). discriminate.
Defined.

Lemma trim_nan_budget_keeps_everything_witness :
  trimMessagesByTokenBudget unit_encode (Some sample_history) NaN
  = {| messages := sample_history;
       totalTokens := countTokensForMessagesArray unit_encode sample_history |}.
Proof.
  apply (trim_nan_budget_keeps_everything unit_encode sample_history). discriminate.
Defined.

(** The newest turn counts 22 with the system message: it stays under a
    budget of 25 and goes under a budget of 20. *)
Lemma trim_keeps_newest_iff_it_fits_witness :
  last (messages (trimMessagesByTokenBudget unit_encode
                    (Some (sample_system :: [sample_older] ++ [sample_newer])) (Num 25)))
  = Some sample_newer /\
  messages (trimMessagesByTokenBudget unit_encode
              (Some (sample_system :: [sample_older] ++ [sample_newer])) (Num 20))
  = [sample_system].
Proof.
  split.
  - apply (proj1 (trim_keeps_newest_iff_it_fits unit_encode sample_system sample_newer
                    [sample_older] (Num 25))).
    reflexivity.
  - apply (proj2 (trim_keeps_newest_iff_it_fits unit_encode sample_system sample_newer
                    [sample_older] (Num 20))).
    reflexivity.
Defined.

Lemma trim_budget_monotone_witness :
  (evicted_count (sample_system :: [sample_older; sample_newer])
     (trimMessagesByTokenBudget unit_encode
        (Some (sample_system :: [sample_older; sample_newer])) (Num 25))
   <= evicted_count (sample_system :: [sample_older; sample_newer])
        (trimMessagesByTokenBudget unit_encode
           (Some (sample_system :: [sample_older; sample_newer])) (Num 10)))%nat.
Proof.
  apply (trim_budget_monotone unit_encode sample_system [sample_older; sample_newer] 10 25).
  lia.
Defined.

Lemma trim_result_size_witness :
  (length (messages (trimMessagesByTokenBudget unit_encode (Some sample_history) (Num 10)))
   <= length sample_history)%nat.
Proof.
  apply (proj2 (trim_result_size unit_encode (Some sample_history) (Num 10)) sample_history).
  - reflexivity.
  - discriminate.
Defined.

Lemma handlers_keep_system_message_first_witness :
  histories_ok (snd (api_chat unit_encode (Num 3000) sample_create sample_request
                       (sample_state []))).
Proof.
  exact (proj1 (handlers_keep_system_message_first unit_encode (Num 3000) sample_create
                  sample_request (sample_state []) sample_state_ok)).
Defined.

(** An anonymous turn on an empty session leaves the seed, the user message
    and the reply in the session. *)
Lemma anonymous_chat_success_witness :
  session_history (session (snd (api_chat unit_encode (Num 3000) sample_create
                                   sample_request anon_state)))
  = Some [seed_message (Some 1000); user_turn "Mhoro" 1000;
          assistant_turn "Mhoro, ndeipi?" 1000].
Proof.
  rewrite (proj1 (proj2 (anonymous_chat_success unit_encode (Num 3000) sample_create
                           sample_request " Mhoro " anon_state (Some "Mhoro, ndeipi?")
                           eq_refl eq_refl ltac:(discriminate) eq_refl))).
  vm_compute. reflexivity.
Defined.

(** The same turn with a completion service that fails leaves the seed and
    the user message. *)
Lemma anonymous_chat_failure_keeps_user_message_witness :
  session_history (session (snd (api_chat unit_encode (Num 3000)
                                   (fun _ => Throw store_unavailable)
                                   sample_request anon_state)))
  = Some [seed_message (Some 1000); user_turn "Mhoro" 1000].
Proof.
  rewrite (proj1 (proj2 (anonymous_chat_failure_keeps_user_message unit_encode (Num 3000)
                           (fun _ => Throw store_unavailable)
                           sample_request " Mhoro " anon_state store_unavailable
                           eq_refl eq_refl ltac:(discriminate) eq_refl))).
  vm_compute. reflexivity.
Defined.

Lemma durable_requests_touch_only_their_document_witness :
  session (snd (api_chat unit_encode (Num 3000) sample_create sample_request
                  (sample_state [])))
  = session (sample_state []).
Proof.
  exact (proj1 (proj1 (durable_requests_touch_only_their_document unit_encode (Num 3000)
                         sample_create sample_request (sample_state []) "u1"
                         sample_durable))).
Defined.

Lemma anonymous_requests_leave_the_store_witness :
  firestore (snd (api_chat unit_encode (Num 3000) sample_create sample_request anon_state))
  = firestore anon_state.
Proof.
  exact (proj1 (proj1 (anonymous_requests_leave_the_store unit_encode (Num 3000)
                         sample_create sample_request anon_state eq_refl))).
Defined.

Lemma without_store_users_are_anonymous_witness :
  api_chat unit_encode (Num 3000) sample_create sample_request anon_state
  = api_chat unit_encode (Num 3000) sample_create
      {| req_user := None; body := body sample_request |} anon_state.
Proof.
  exact (proj1 (without_store_users_are_anonymous unit_encode (Num 3000) sample_create
                  sample_request anon_state eq_refl)).
Defined.

(** The sample turn is answered with a total of 293 tokens; the counter,
    5 before, is then reported as 298. *)
Lemma usage_reports_what_chat_charged_witness :
  fst (api_usage sample_request
         (snd (api_chat unit_encode (Num 3000) sample_create sample_request
                 (sample_state []))))
  = {| status := 200; json_body := UsageBody (5 + 293) (Some 1000) |}.
Proof.
  exact (proj2 (usage_reports_what_chat_charged unit_encode (Num 3000) sample_create
                  sample_request "u1" " Mhoro " (sample_state [])
                  {["u1" := sample_doc]} sample_doc "Mhoro, ndeipi?" 279 14 293
                  eq_refl ltac:(discriminate) eq_refl sample_lookup
                  eq_refl ltac:(discriminate) ltac:(vm_compute; reflexivity) eq_refl)).
Defined.

Lemma usage_route_reads_the_counter_witness :
  status (fst (api_usage sample_request (sample_state []))) = 200.
Proof.
  exact (proj1 (proj2 (proj2 (proj2 (usage_route_reads_the_counter sample_request
                                       (sample_state []))))
                  "u1" {["u1" := sample_doc]} sample_durable eq_refl eq_refl)).
Defined.


Lemma history_after_reset_is_the_seed_witness :
  fst (api_history unit_encode sample_request
         (snd (api_reset unit_encode sample_request (sample_state []))))
  = {| status := 200; json_body := HistoryBody [seed_message (Some 1000)] |}.
Proof.
  exact (history_after_reset_is_the_seed unit_encode sample_request (sample_state [])
           eq_refl eq_refl).
Defined.

Lemma load_after_save_witness :
  fst (loadUserHistory unit_encode "u1"
         (snd (saveUserHistory "u1" sample_history 21 (sample_state []))))
  = Ret (Some {| loaded_history := map (stamp 1000) sample_history;
                 loaded_total_tokens := 21 |}).
Proof.
  exact (proj1 (load_after_save unit_encode "u1" sample_history 21 (sample_state [])
                  {["u1" := sample_doc]} eq_refl eq_refl eq_refl)).
Defined.

Lemma usage_increments_add_up_witness :
  exists docs' : gmap string user_doc,
    firestore (snd (addUserTokenUsage "u1" 4
                      (snd (addUserTokenUsage "u1" 3 (sample_state [])))))
    = Some docs' /\
    current_usage (docs' !! "u1") = 5 + 3 + 4.
Proof.
  destruct (usage_increments_add_up "u1" 3 4 (sample_state []) {["u1" := sample_doc]}
              eq_refl eq_refl eq_refl) as (docs' & Hfs & Hsum & _).
  exists docs'. split; [exact Hfs|]. rewrite Hsum, sample_lookup. reflexivity.
Defined.

Lemma load_seeds_once_witness :
  fst (loadUserHistory unit_encode "u2"
         (snd (loadUserHistory unit_encode "u2" (sample_state []))))
  = Ret (Some {| loaded_history := [seed_message (Some 1000)];
                 loaded_total_tokens := countTokensForContent unit_encode SYSTEM_PROMPT |}).
Proof.
  refine (proj1 (proj2 (load_seeds_once unit_encode "u2" (sample_state [])
                          {["u1" := sample_doc]} eq_refl _ eq_refl eq_refl eq_refl))).
  apply lookup_singleton_ne. discriminate.
Defined.

(** A header with a padded token followed by a second 'Bearer ': the token
    verified is [abc]. *)
Lemma authenticated_only_by_a_verified_token_witness :
  exists rest token : string,
    Some "Bearer  abc Bearer x" = Some ("Bearer " ++ rest)%string /\
    token = js_trim (until_separator "Bearer " rest) /\
    token <> "" /\ js_trim token = token /\
    true = true /\
    sample_verify token = Ret "uid-abc".
Proof.
  exact (authenticated_only_by_a_verified_token true sample_verify
           (Some "Bearer  abc Bearer x") "uid-abc" eq_refl).
Defined.

(** A body whose [message] is blank. *)
Lemma chat_blank_message_is_400_witness :
  api_chat unit_encode (Num 3000) sample_create
    {| req_user := None; body := Some (JObj [("message", JStr "   ")]) |} anon_state
  = ({| status := 400; json_body := ErrorBody "message is required" None |}, anon_state).
Proof.
  apply (chat_blank_message_is_400 unit_encode (Num 3000) sample_create).
  right. right. exists "   ". split; reflexivity.
Defined.
